(** * ai-chat-export: chat discovery, message extraction and JSON output

    A shallow embedding of [src/providers/gemini.mjs], [src/browser.mjs],
    [src/formatter.mjs] and the file names of [bin/ai-chat-export.mjs], and
    the properties of the discovery loop, the link filter, the extraction
    cascade, the two formatters and the names of the files.

    Conventions of the embedding:
    - a JavaScript string is a [string]; one [ascii] stands for one code
      unit in the range 0..255, so [length] is the [.length] of the string;
    - the page is a tree of elements carrying exactly the properties the
      scripts read ([tagName], attributes, [innerText], [textContent],
      [href], the top of the bounding rectangle, the children);
    - vertical positions are integers;
    - [JSON.stringify] and [JSON.parse] are written out, the former after
      the serialisation algorithm of the language standard (with its [gap]
      and [indent]), the latter as a recursive-descent reader with fuel
      linear in the length of the text;
    - an exception is a value ([Thrown]), and [try]/[catch] is [tryCatch]. *)

From Stdlib Require Import List String Ascii Bool Arith ZArith Lia.
From Stdlib Require Import Sorting.Sorted Sorting.Permutation.
From Stdlib Require Import DecimalString.
Import ListNotations.
Local Open Scope string_scope.

(* ================================================================== *)
(** ** Strings as the scripts use them *)
(* ================================================================== *)

Module JS.

Definition code (c : ascii) : nat := nat_of_ascii c.

Definition codeIn (c : ascii) (l : list nat) : bool :=
  existsb (Nat.eqb (code c)) l.

(** White space removed by [String.prototype.trim]: TAB, LF, VT, FF, CR,
    SP and NBSP (the white space and line terminators below 256). *)
Definition isWhiteSpace (c : ascii) : bool :=
  codeIn c [9; 10; 11; 12; 13; 32; 160].

Fixpoint trimStart (s : string) : string :=
  match s with
  | EmptyString => EmptyString
  | String c r => if isWhiteSpace c then trimStart r else s
  end.

Fixpoint trimEnd (s : string) : string :=
  match s with
  | EmptyString => EmptyString
  | String c r =>
      match trimEnd r with
      | EmptyString =>
          if isWhiteSpace c then EmptyString else String c EmptyString
      | r' => String c r'
      end
  end.

(** [s.trim()] *)
Definition trim (s : string) : string := trimEnd (trimStart s).

(** Truthiness of a string: [s] is truthy when it is not empty. *)
Definition nonEmpty (s : string) : bool :=
  match s with EmptyString => false | String _ _ => true end.

(** Truthiness of a string that may be [undefined]. *)
Definition truthy (t : option string) : bool :=
  match t with Some s => nonEmpty s | None => false end.

Definition lowerChar (c : ascii) : ascii :=
  let n := code c in
  if Nat.leb 65 n && Nat.leb n 90 then ascii_of_nat (n + 32) else c.

(** [s.toLowerCase()] on the letters A..Z. *)
Fixpoint toLowerCase (s : string) : string :=
  match s with
  | EmptyString => EmptyString
  | String c r => String (lowerChar c) (toLowerCase r)
  end.

(** [s.includes(sub)] *)
Fixpoint includes (s sub : string) : bool :=
  prefix sub s
  || match s with
     | EmptyString => false
     | String _ r => includes r sub
     end.

(** [s.endsWith(suffix)] *)
Fixpoint endsWith (s suffix : string) : bool :=
  (s =? suffix)
  || match s with
     | EmptyString => false
     | String _ r => endsWith r suffix
     end.

(** [s.split('\n')[0]] *)
Fixpoint firstLine (s : string) : string :=
  match s with
  | EmptyString => EmptyString
  | String c r =>
      if codeIn c [10] then EmptyString else String c (firstLine r)
  end.

(** The separators of a class attribute: TAB, LF, FF, CR, SP. *)
Definition isTokenSep (c : ascii) : bool :=
  codeIn c [9; 10; 12; 13; 32].

(** The tokens of a class attribute; [cur] is the token being read. *)
Fixpoint tokensFrom (cur : string) (s : string) : list string :=
  match s with
  | EmptyString => if nonEmpty cur then [cur] else []
  | String c r =>
      if isTokenSep c
      then (if nonEmpty cur then [cur] else []) ++ tokensFrom "" r
      else tokensFrom (cur ++ String c "") r
  end.

Definition tokens (s : string) : list string := tokensFrom "" s.

Definition strIn (x : string) (l : list string) : bool :=
  existsb (String.eqb x) l.

(** [re.test(s)] for a case-insensitive alternation of plain lower-case
    words, as in [/user|query|human|prompt|request/i]. *)
Definition testAnyWordI (words : list string) (s : string) : bool :=
  existsb (includes (toLowerCase s)) words.

End JS.

(* ================================================================== *)
(** ** Exceptions *)
(* ================================================================== *)

Inductive exn : Type :=
| SyntaxError
| TypeError.

Inductive outcome (A : Type) : Type :=
| Returned (a : A)
| Thrown (e : exn).
Arguments Returned {A} a.
Arguments Thrown {A} e.

(** [try { body } catch { handler }] *)
Definition tryCatch {A : Type} (body : outcome A) (handler : A) : outcome A :=
  match body with
  | Returned a => Returned a
  | Thrown _ => Returned handler
  end.

Definition bindO {A B : Type} (m : outcome A) (k : A -> outcome B) : outcome B :=
  match m with
  | Returned a => k a
  | Thrown e => Thrown e
  end.

(* ================================================================== *)
(** ** JSON values, [JSON.stringify] and [JSON.parse] *)
(* ================================================================== *)

Module JSON.
Import JS.

(** A JSON value.  A number keeps the text it was read from.  The members
    of an object are kept in the order of the text. *)
#[local] Unset Elimination Schemes.
Inductive json : Type :=
| JNull
| JBool (b : bool)
| JNumber (lexeme : string)
| JString (s : string)
| JArray (items : list json)
| JObject (members : list (string * json)).
#[local] Set Elimination Schemes.

Definition dquote : ascii := "034"%char.
Definition backslash : ascii := "092"%char.
Definition newline : string := String "010"%char "".

Definition hexDigit (n : nat) : ascii :=
  nth n ["0"; "1"; "2"; "3"; "4"; "5"; "6"; "7";
         "8"; "9"; "a"; "b"; "c"; "d"; "e"; "f"]%char "0"%char.

(** One code unit of [QuoteJSONString]. *)
Definition escapeChar (c : ascii) : string :=
  let n := code c in
  if Nat.eqb n 8 then String backslash "b"
  else if Nat.eqb n 9 then String backslash "t"
  else if Nat.eqb n 10 then String backslash "n"
  else if Nat.eqb n 12 then String backslash "f"
  else if Nat.eqb n 13 then String backslash "r"
  else if Nat.eqb n 34 then String backslash (String dquote "")
  else if Nat.eqb n 92 then String backslash (String backslash "")
  else if Nat.ltb n 32
       then String backslash
              ("u00" ++ String (hexDigit (n / 16))
                          (String (hexDigit (n mod 16)) ""))
  else String c "".

Fixpoint escape (s : string) : string :=
  match s with
  | EmptyString => EmptyString
  | String c r => escapeChar c ++ escape r
  end.

(** [QuoteJSONString] *)
Definition quote (s : string) : string :=
  String dquote (escape s ++ String dquote "").

(** The end of [SerializeJSONObject] and [SerializeJSONArray]: the members
    already serialised are joined between the brackets. *)
Definition wrap (opening closing gap stepback indent : string)
    (partial : list string) : string :=
  match partial with
  | [] => opening ++ closing
  | _ :: _ =>
      if nonEmpty gap
      then opening ++ newline ++ indent
           ++ concat ("," ++ newline ++ indent) partial
           ++ newline ++ stepback ++ closing
      else opening ++ concat "," partial ++ closing
  end.

(** [SerializeJSONProperty] on a value that is already a JSON value. *)
Fixpoint serialize (gap indent : string) (v : json) {struct v} : string :=
  match v with
  | JNull => "null"
  | JBool b => if b then "true" else "false"
  | JNumber l => l
  | JString s => quote s
  | JArray items =>
      let stepback := indent in
      let indent := indent ++ gap in
      wrap "[" "]" gap stepback indent (map (serialize gap indent) items)
  | JObject members =>
      let stepback := indent in
      let indent := indent ++ gap in
      wrap "{" "}" gap stepback indent
        (map (fun kv =>
                quote (fst kv) ++ ":" ++ (if nonEmpty gap then " " else "")
                ++ serialize gap indent (snd kv))
             members)
  end.

Fixpoint spaces (n : nat) : string :=
  match n with
  | O => EmptyString
  | S k => String " "%char (spaces k)
  end.

(** [JSON.stringify(v)] *)
Definition stringify (v : json) : string := serialize "" "" v.

(** [JSON.stringify(v, null, n)]: the gap is [n] spaces, at most 10. *)
Definition stringifyIndent (n : nat) (v : json) : string :=
  serialize (spaces (Nat.min n 10)) "" v.

(** *** Reading *)

Definition isJsonWs (c : ascii) : bool := codeIn c [9; 10; 13; 32].

Fixpoint skipWs (s : string) : string :=
  match s with
  | EmptyString => EmptyString
  | String c r => if isJsonWs c then skipWs r else s
  end.

Definition hexVal (c : ascii) : option nat :=
  let n := code c in
  if Nat.leb 48 n && Nat.leb n 57 then Some (n - 48)
  else if Nat.leb 97 n && Nat.leb n 102 then Some (n - 87)
  else if Nat.leb 65 n && Nat.leb n 70 then Some (n - 55)
  else None.

(** The character a one-letter escape stands for. *)
Definition unescape (e : ascii) : option ascii :=
  let n := code e in
  if Nat.eqb n 34 then Some dquote
  else if Nat.eqb n 92 then Some backslash
  else if Nat.eqb n 47 then Some "/"%char
  else if Nat.eqb n 98 then Some (ascii_of_nat 8)
  else if Nat.eqb n 102 then Some (ascii_of_nat 12)
  else if Nat.eqb n 110 then Some (ascii_of_nat 10)
  else if Nat.eqb n 114 then Some (ascii_of_nat 13)
  else if Nat.eqb n 116 then Some (ascii_of_nat 9)
  else None.

Definition consFst (c : ascii) (p : option (string * string))
  : option (string * string) :=
  match p with
  | Some (t, rest) => Some (String c t, rest)
  | None => None
  end.

(** The characters of a string literal after its opening quote, up to and
    including the closing quote.  A [\u] escape above 00ff has no code unit
    in this model of strings and is refused. *)
Fixpoint parseChars (s : string) : option (string * string) :=
  match s with
  | EmptyString => None
  | String c r =>
      if Ascii.eqb c dquote then Some (EmptyString, r)
      else if Ascii.eqb c backslash then
        match r with
        | EmptyString => None
        | String e r1 =>
            if Ascii.eqb e "u" then
              match r1 with
              | String h1 (String h2 (String h3 (String h4 r2))) =>
                  match hexVal h1, hexVal h2, hexVal h3, hexVal h4 with
                  | Some a, Some b, Some c', Some d =>
                      let n := ((a * 16 + b) * 16 + c') * 16 + d in
                      if Nat.ltb n 256
                      then consFst (ascii_of_nat n) (parseChars r2)
                      else None
                  | _, _, _, _ => None
                  end
              | _ => None
              end
            else
              match unescape e with
              | Some x => consFst x (parseChars r1)
              | None => None
              end
        end
      else if Nat.ltb (code c) 32 then None
      else consFst c (parseChars r)
  end.

Fixpoint stripPrefix (p s : string) : option string :=
  match p with
  | EmptyString => Some s
  | String a p' =>
      match s with
      | EmptyString => None
      | String b s' => if Ascii.eqb a b then stripPrefix p' s' else None
      end
  end.

Definition isDigit (c : ascii) : bool :=
  Nat.leb 48 (code c) && Nat.leb (code c) 57.

Fixpoint spanDigits (s : string) : string * string :=
  match s with
  | EmptyString => (EmptyString, EmptyString)
  | String c r =>
      if isDigit c
      then let (d, rest) := spanDigits r in (String c d, rest)
      else (EmptyString, s)
  end.

(** A number: [-]? int frac? exp?, returned as its text. *)
Definition parseNumber (s : string) : option (string * string) :=
  let (sign, s1) :=
    match stripPrefix "-" s with
    | Some r => ("-", r)
    | None => ("", s)
    end in
  match s1 with
  | EmptyString => None
  | String c r =>
      if isDigit c then
        let (int, s2) :=
          if Ascii.eqb c "0" then ("0", r)
          else let (d, rest) := spanDigits r in (String c d, rest) in
        let frac :=
          match stripPrefix "." s2 with
          | Some r2 =>
              let (d, rest) := spanDigits r2 in
              if nonEmpty d then Some ("." ++ d, rest) else None
          | None => Some ("", s2)
          end in
        match frac with
        | None => None
        | Some (fr, s3) =>
            match s3 with
            | String e r3 =>
                if Ascii.eqb e "e" || Ascii.eqb e "E" then
                  let (sg, r4) :=
                    match r3 with
                    | String g r' =>
                        if Ascii.eqb g "+" || Ascii.eqb g "-"
                        then (String g "", r')
                        else ("", r3)
                    | EmptyString => ("", r3)
                    end in
                  let (d, rest) := spanDigits r4 in
                  if nonEmpty d
                  then Some (sign ++ int ++ fr ++ String e (sg ++ d), rest)
                  else None
                else Some (sign ++ int ++ fr, s3)
            | EmptyString => Some (sign ++ int ++ fr, s3)
            end
        end
      else None
  end.

(** A value, the elements of an array after its first bracket, and the
    members of an object after its first brace. *)
Fixpoint parseValue (fuel : nat) (s : string) {struct fuel}
  : option (json * string) :=
  match fuel with
  | O => None
  | S fuel' =>
      match skipWs s with
      | EmptyString => None
      | String c r =>
          if Ascii.eqb c "[" then
            match stripPrefix "]" (skipWs r) with
            | Some rest => Some (JArray [], rest)
            | None =>
                match parseElements fuel' r with
                | Some (vs, rest) => Some (JArray vs, rest)
                | None => None
                end
            end
          else if Ascii.eqb c "{" then
            match stripPrefix "}" (skipWs r) with
            | Some rest => Some (JObject [], rest)
            | None =>
                match parseMembers fuel' r with
                | Some (ms, rest) => Some (JObject ms, rest)
                | None => None
                end
            end
          else if Ascii.eqb c dquote then
            match parseChars r with
            | Some (t, rest) => Some (JString t, rest)
            | None => None
            end
          else
            match stripPrefix "true" (String c r) with
            | Some rest => Some (JBool true, rest)
            | None =>
            match stripPrefix "false" (String c r) with
            | Some rest => Some (JBool false, rest)
            | None =>
            match stripPrefix "null" (String c r) with
            | Some rest => Some (JNull, rest)
            | None =>
            match parseNumber (String c r) with
            | Some (l, rest) => Some (JNumber l, rest)
            | None => None
            end end end end
      end
  end

with parseElements (fuel : nat) (s : string) {struct fuel}
  : option (list json * string) :=
  match fuel with
  | O => None
  | S fuel' =>
      match parseValue fuel' s with
      | None => None
      | Some (v, r) =>
          match skipWs r with
          | EmptyString => None
          | String c r1 =>
              if Ascii.eqb c "," then
                match parseElements fuel' r1 with
                | Some (vs, rest) => Some (v :: vs, rest)
                | None => None
                end
              else if Ascii.eqb c "]" then Some ([v], r1)
              else None
          end
      end
  end

with parseMembers (fuel : nat) (s : string) {struct fuel}
  : option (list (string * json) * string) :=
  match fuel with
  | O => None
  | S fuel' =>
      match stripPrefix (String dquote "") (skipWs s) with
      | None => None
      | Some r =>
          match parseChars r with
          | None => None
          | Some (k, r1) =>
              match stripPrefix ":" (skipWs r1) with
              | None => None
              | Some r2 =>
                  match parseValue fuel' r2 with
                  | None => None
                  | Some (v, r3) =>
                      match skipWs r3 with
                      | EmptyString => None
                      | String c r4 =>
                          if Ascii.eqb c "," then
                            match parseMembers fuel' r4 with
                            | Some (ms, rest) => Some ((k, v) :: ms, rest)
                            | None => None
                            end
                          else if Ascii.eqb c "}" then Some ([(k, v)], r4)
                          else None
                      end
                  end
              end
          end
      end
  end.

(** [JSON.parse(text)]: one value, white space around it, nothing else;
    anything else throws a [SyntaxError]. *)
Definition parse (text : string) : outcome json :=
  match parseValue (2 * String.length text + 2) text with
  | Some (v, rest) =>
      match skipWs rest with
      | EmptyString => Returned v
      | String _ _ => Thrown SyntaxError
      end
  | None => Thrown SyntaxError
  end.

(** [o.key] on an object read by [parse]: the last member of that name
    (a later duplicate overwrites an earlier one), [None] for [undefined]. *)
Fixpoint getMember (key : string) (members : list (string * json))
  : option json :=
  match members with
  | [] => None
  | (k, v) :: rest =>
      match getMember key rest with
      | Some v' => Some v'
      | None => if String.eqb k key then Some v else None
      end
  end.

(** *** Notions used to state what the reader does *)

(** Induction on a JSON value, with the property known of the items of an
    array and of the values of the members of an object. *)
Section JsonInduction.

Variable P : json -> Prop.
Hypothesis Hnull : P JNull.
Hypothesis Hbool : forall b, P (JBool b).
Hypothesis Hnumber : forall l, P (JNumber l).
Hypothesis Hstring : forall s, P (JString s).
Hypothesis Harray : forall items, Forall P items -> P (JArray items).
Hypothesis Hobject :
  forall members, Forall (fun kv => P (snd kv)) members -> P (JObject members).

Fixpoint json_induction (v : json) {struct v} : P v :=
  match v with
  | JNull => Hnull
  | JBool b => Hbool b
  | JNumber l => Hnumber l
  | JString s => Hstring s
  | JArray items =>
      Harray items
        ((fix all (l : list json) : Forall P l :=
            match l with
            | [] => Forall_nil P
            | x :: t => Forall_cons x (json_induction x) (all t)
            end) items)
  | JObject members =>
      Hobject members
        ((fix all (l : list (string * json))
            : Forall (fun kv => P (snd kv)) l :=
            match l with
            | [] => Forall_nil _
            | kv :: t =>
                Forall_cons (P := fun kv => P (snd kv)) kv
                  (json_induction (snd kv)) (all t)
            end) members)
  end.

End JsonInduction.

(** A value without numbers: what the scripts and the formatter write. *)
Fixpoint noNumbers (v : json) : Prop :=
  match v with
  | JNumber _ => False
  | JArray items => fold_right (fun x acc => noNumbers x /\ acc) True items
  | JObject members =>
      fold_right (fun kv acc => noNumbers (snd kv) /\ acc) True members
  | _ => True
  end.

(** The fuel reading a value back takes. *)
Fixpoint size (v : json) : nat :=
  match v with
  | JArray items => S (list_sum (map (fun x => S (size x)) items))
  | JObject members =>
      S (list_sum (map (fun kv => S (size (snd kv))) members))
  | _ => 1
  end.

(** A string of JSON white space. *)
Fixpoint allWs (w : string) : Prop :=
  match w with
  | EmptyString => True
  | String c r => isJsonWs c = true /\ allWs r
  end.

(** [s] begins with a character that is neither white space nor a closing
    bracket. *)
Definition opensValue (s : string) : Prop :=
  exists c r, s = String c r /\ isJsonWs c = false
              /\ Ascii.eqb "]" c = false /\ Ascii.eqb "}" c = false.

(** What is known of a value when its items are read: it is read back from
    any text that begins with its serialisation. *)
Definition readsBack (ser : json -> string) (v : json) : Prop :=
  forall fuel t, size v <= fuel -> parseValue fuel (ser v ++ t) = Some (v, t).

(** One member of an object, as [serialize] writes it. *)
Definition member (gap : string) (ser : json -> string) (kv : string * json) : string :=
  quote (fst kv) ++ ":" ++ (if nonEmpty gap then " " else "") ++ ser (snd kv).

End JSON.

(* ================================================================== *)
(** ** The page *)
(* ================================================================== *)

Module Dom.
Import JS.

(** An element with the properties the scripts read.  [tagName] is as the
    page reports it (upper case for the elements of an HTML page),
    [innerText] is [None] where the property is [undefined] (an element
    that is not an HTML element), [textContent] is [None] for [null],
    [href] is the resolved address of a link, [top] is
    [getBoundingClientRect().top]. *)
#[local] Unset Elimination Schemes.
Inductive Element : Type := mkElement {
  tagName : string;
  attributes : list (string * string);
  innerText : option string;
  textContent : option string;
  href : string;
  top : Z;
  children : list Element
}.
#[local] Set Elimination Schemes.

(** The document, given by its root element. *)
Definition Document : Type := Element.

(** [el.getAttribute(name)] *)
Fixpoint lookupAttr (name : string) (attrs : list (string * string))
  : option string :=
  match attrs with
  | [] => None
  | (k, v) :: rest => if String.eqb k name then Some v else lookupAttr name rest
  end.

Definition getAttribute (el : Element) (name : string) : option string :=
  lookupAttr name (attributes el).

(** [el.className] *)
Definition className (el : Element) : string :=
  match getAttribute el "class" with
  | Some s => s
  | None => EmptyString
  end.

(** [el.classList.contains(token)] *)
Definition classListContains (el : Element) (token : string) : bool :=
  strIn token (tokens (className el)).

(** The simple selectors the scripts use. *)
Inductive simpleSelector : Type :=
| TypeSel (name : string)            (* name *)
| ClassSel (name : string)           (* .name *)
| AttrHas (attr : string)            (* [attr] *)
| AttrContains (attr sub : string).  (* [attr*="sub"] *)

(** A compound selector (all of its parts hold) and a selector list (one of
    its compounds holds). *)
Definition compound : Type := list simpleSelector.
Definition selectorList : Type := list compound.

Definition matchesSimple (el : Element) (s : simpleSelector) : bool :=
  match s with
  | TypeSel name => String.eqb (toLowerCase (tagName el)) name
  | ClassSel name => classListContains el name
  | AttrHas attr =>
      match getAttribute el attr with Some _ => true | None => false end
  | AttrContains attr sub =>
      match getAttribute el attr with
      | Some v => nonEmpty sub && includes v sub
      | None => false
      end
  end.

Definition matches (el : Element) (sel : selectorList) : bool :=
  existsb (forallb (matchesSimple el)) sel.

(** An element and its descendants, in document order. *)
Fixpoint subtree (el : Element) : list Element :=
  match el with
  | mkElement _ _ _ _ _ _ cs => el :: flat_map subtree cs
  end.

(** [document.querySelectorAll(sel)] *)
Definition querySelectorAll (d : Document) (sel : selectorList)
  : list Element :=
  filter (fun el => matches el sel) (subtree d).

(** [document.querySelector(sel)] *)
Definition querySelector (d : Document) (sel : selectorList)
  : option Element :=
  hd_error (querySelectorAll d sel).

(** [el.querySelector(sel)]: the first match among the descendants of
    [el], [el] itself excluded. *)
Definition querySelectorIn (el : Element) (sel : selectorList)
  : option Element :=
  hd_error (filter (fun x => matches x sel) (flat_map subtree (children el))).

End Dom.

(* ================================================================== *)
(** ** browser.mjs *)
(* ================================================================== *)

Module Browser.
Import JS Dom.

(** [chromeJS(js)]: the script is run on the page in the active tab and its
    result comes back trimmed; when the bridge fails ([page] is [None]) the
    result is the empty string. *)
Definition chromeJS (page : option Document) (script : Document -> string)
  : string :=
  match page with
  | Some d => trim (script d)
  | None => EmptyString
  end.

End Browser.

(* ================================================================== *)
(** ** providers/gemini.mjs *)
(* ================================================================== *)

Module Gemini.
Import JS JSON Dom Browser.

(** The constants the provider exports. *)
Definition name : string := "gemini".
Definition displayName : string := "Google Gemini".
Definition url : string := "https://gemini.google.com/app".

(** *** Scrolling the sidebar *)

(** What [console.log] prints when [verbose] is set. *)
Inductive logLine : Type :=
| Scrolling (count : string)     (* Scrolling... N links so far *)
| FullyLoaded (count : string).  (* Sidebar fully loaded - N links found *)


Section Sidebar.

Context {World : Type}.

(** [chromeJS] of the script that counts the links: its result and the
    state of the browser after the call. *)
Variable readCount : World -> string * World.

(** [chromeJS] of the script that scrolls the sidebar, then [sleep(1500)]. *)
Variable scrollStep : World -> World.

(** The result of the loop: the rounds run, whether it left by [break],
    the lines logged and the state of the browser. *)
Record loopResult : Type := mkLoopResult {
  rounds : nat;
  broke : bool;
  logged : list logLine;
  world : World
}.

(** The [for] loop of [scrollSidebarToLoadAll] with [remaining] rounds to
    go, in round [i] (so [remaining = 100 - i]). *)
Fixpoint scrollLoop (verbose : bool) (remaining i stableRounds : nat)
    (log : list logLine) (w : World) {struct remaining} : loopResult :=
  match remaining with
  | O => mkLoopResult i false log w
  | S remaining' =>
      let (countBefore, w1) := readCount w in
      let w2 := scrollStep w1 in
      let (countAfter, w3) := readCount w2 in
      if String.eqb countAfter countBefore then
        let stableRounds := S stableRounds in
        if Nat.leb 5 stableRounds then
          mkLoopResult (S i) true
            (if verbose then (log ++ [FullyLoaded countAfter])%list else log) w3
        else scrollLoop verbose remaining' (S i) stableRounds log w3
      else
        scrollLoop verbose remaining' (S i) 0
          (if verbose then (log ++ [Scrolling countAfter])%list else log) w3
  end.

Definition scrollSidebarToLoadAll (verbose : bool) (w : World) : loopResult :=
  scrollLoop verbose 100 0 0 [] w.

(** One round seen from outside: whether its two reads of the count agree,
    and the state of the browser after it. *)
Definition roundOutcome (w : World) : bool * World :=
  let (countBefore, w1) := readCount w in
  let w2 := scrollStep w1 in
  let (countAfter, w3) := readCount w2 in
  (String.eqb countAfter countBefore, w3).

(** The state of the browser after [k] rounds from [w]. *)
Fixpoint worldAt (k : nat) (w : World) : World :=
  match k with
  | O => w
  | S k' => snd (roundOutcome (worldAt k' w))
  end.

(** The poll of round [k + 1] from [w] finds the count unchanged. *)
Definition unchanged (w : World) (k : nat) : bool :=
  fst (roundOutcome (worldAt k w)).

(** After [n] rounds from [w] the count has been unchanged for five polls
    in a row: those of the rounds [n - 4] to [n]. *)
Definition stableAt (w : World) (n : nat) : Prop :=
  5 <= n /\ forall j, n - 5 <= j < n -> unchanged w j = true.

End Sidebar.

(** *** Collecting the links *)

Record Link : Type := mkLink { linkHref : string; linkText : string }.

(** [a[href*="/app/"]] *)
Definition selLinks : selectorList := [[TypeSel "a"; AttrContains "href" "/app/"]].

(** [{ href: a.href, text: (a.textContent || '').trim().split('\n')[0].trim() }] *)
Definition linkOf (a : Element) : Link :=
  let content :=
    match textContent a with
    | Some s => if nonEmpty s then s else EmptyString
    | None => EmptyString
    end in
  mkLink (href a) (trim (firstLine (trim content))).

(** The filter of the links script. *)
Definition isChatLink (l : Link) : bool :=
  negb (endsWith (linkHref l) "/app")
  && negb (endsWith (linkHref l) "/app/")
  && negb (includes (linkHref l) "/download")
  && negb (includes (linkHref l) "/settings")
  && negb (includes (linkHref l) "/extensions")
  && negb (includes (linkHref l) "accounts.google.com").

Definition linkJson (l : Link) : json :=
  JObject [("href", JString (linkHref l)); ("text", JString (linkText l))].

(** The links the script keeps, in document order. *)
Definition pageLinks (d : Document) : list Link :=
  filter isChatLink (map linkOf (querySelectorAll d selLinks)).

(** The script whose result is [linksJSON]. *)
Definition linksScript (d : Document) : string :=
  stringify (JArray (map linkJson (pageLinks d))).

(** [l.href] on a value read by [JSON.parse]: a [TypeError] on [null],
    [undefined] ([None]) on a value without that member. *)
Definition hrefOf (l : json) : outcome (option json) :=
  match l with
  | JNull => Thrown TypeError
  | JObject members => Returned (getMember "href" members)
  | _ => Returned None
  end.

(** Equality of the keys of a [Set].  Arrays and objects are compared by
    reference, and two values read from a text are never the same
    reference.  Numbers are compared by their text. *)
Definition sameValueZero (a b : option json) : bool :=
  match a, b with
  | None, None => true
  | Some JNull, Some JNull => true
  | Some (JBool x), Some (JBool y) => Bool.eqb x y
  | Some (JNumber x), Some (JNumber y) => String.eqb x y
  | Some (JString x), Some (JString y) => String.eqb x y
  | _, _ => false
  end.

(** [seen.has(k)] for the set [seen], kept in insertion order. *)
Definition setHas (seen : list (option json)) (k : option json) : bool :=
  existsb (sameValueZero k) seen.

(** [links.filter(l => { if (seen.has(l.href)) return false;
    seen.add(l.href); return true; })] from the state [seen] of the set. *)
Fixpoint filterSeen (seen : list (option json)) (links : list json)
  : outcome (list json) :=
  match links with
  | [] => Returned []
  | l :: rest =>
      bindO (hrefOf l) (fun h =>
        if setHas seen h then filterSeen seen rest
        else bindO (filterSeen (seen ++ [h])%list rest)
                   (fun kept => Returned (l :: kept)))
  end.

(** Lines 121-132: the [try] block and its [catch].  Calling [filter] on a
    value that is not an array is a [TypeError]. *)
Definition dedupe (linksJSON : string) : outcome json :=
  tryCatch
    (bindO (parse linksJSON) (fun links =>
       match links with
       | JArray items =>
           bindO (filterSeen [] items) (fun kept => Returned (JArray kept))
       | _ => Thrown TypeError
       end))
    (JArray []).

(** Lines 106-132 on the page the links script sees. *)
Definition collectLinks (page : option Document) : outcome json :=
  dedupe (chromeJS page linksScript).

(** The links of [l] that are the first with their address, in the order
    of [l]: a link is kept and the later links with its address dropped. *)
Fixpoint firstSeen (l : list Link) : list Link :=
  match l with
  | [] => []
  | x :: rest =>
      x :: filter (fun y => negb (String.eqb (linkHref y) (linkHref x)))
             (firstSeen rest)
  end.

Section Discovery.

Context {World : Type}.
Variable readCount : World -> string * World.
Variable scrollStep : World -> World.

(** [ensureSidebarOpen()] *)
Variable openSidebar : World -> World.

(** The page a script sees in a state of the browser, [None] when the
    bridge fails there. *)
Variable pageOf : World -> option Document.

(** The page the links script sees: the one after the sidebar was opened
    and scrolled. *)
Definition sidebarPage (verbose : bool) (w : World) : option Document :=
  let w1 := openSidebar w in
  let r := scrollSidebarToLoadAll readCount scrollStep verbose w1 in
  pageOf (world r).

(** [collectChats({ verbose })] *)
Definition collectChats (verbose : bool) (w : World) : outcome json :=
  collectLinks (sidebarPage verbose w).

(** The links the script keeps on the page [collectChats] reads. *)
Definition keptLinks (verbose : bool) (w : World) : list Link :=
  match sidebarPage verbose w with
  | Some d => pageLinks d
  | None => []
  end.

End Discovery.

(** *** Extracting the messages *)

Record Message : Type := mkMessage { role : string; content : string }.

Definition messageJson (m : Message) : json :=
  JObject [("role", JString (role m)); ("content", JString (content m))].

(** The selectors of the extraction script. *)
Definition selTurns : selectorList :=
  [[TypeSel "user-query"]; [TypeSel "model-response"];
   [ClassSel "conversation-turn"]; [AttrContains "class" "turn-container"]].
Definition selClassUser : selectorList := [[AttrContains "class" "user"]].
Definition selQuery : selectorList :=
  [[ClassSel "query-text"]; [AttrContains "class" "query-content"];
   [AttrContains "class" "user-query"]; [TypeSel "user-query"]].
Definition selResponse : selectorList :=
  [[ClassSel "response-container"]; [ClassSel "model-response-text"];
   [AttrContains "class" "model-response"]; [TypeSel "model-response"];
   [TypeSel "message-content"]].
Definition selData : selectorList := [[AttrHas "data-message-author-role"]].
Definition selContainer : selectorList := [[ClassSel "conversation-container"]].
Definition selConversation : selectorList :=
  [[AttrContains "class" "conversation"]].
Definition selMain : selectorList := [[TypeSel "main"]].

(** A query of the document, as a counter in a test harness sees it. *)
Inductive probe : Type :=
| QueryAll (sel : selectorList)
| QueryOne (sel : selectorList).

(** A computation that logs the queries it makes. *)
Definition Probing (A : Type) : Type := (A * list probe)%type.

Definition ret {A : Type} (a : A) : Probing A := (a, []).

Definition bind {A B : Type} (m : Probing A) (k : A -> Probing B)
  : Probing B :=
  let (a, l1) := m in
  let (b, l2) := k a in
  (b, (l1 ++ l2)%list).

Notation "x <- m ;; k" := (bind m (fun x => k))
  (at level 61, m at next level, right associativity).

Definition queryAll (d : Document) (sel : selectorList)
  : Probing (list Element) :=
  (querySelectorAll d sel, [QueryAll sel]).

Definition queryOne (d : Document) (sel : selectorList)
  : Probing (option Element) :=
  (querySelector d sel, [QueryOne sel]).

(** [a || b] on two queries: [b] is made only when [a] found nothing. *)
Definition orElse (a b : Probing (option Element))
  : Probing (option Element) :=
  r <- a ;;
  match r with
  | Some el => ret (Some el)
  | None => b
  end.

(** A block of the script either returns from the function ([Return]) or
    goes on with the array [results] as it left it ([Continue]). *)
Inductive flow : Type :=
| Return (value : list Message)
| Continue (results : list Message).

Definition andThen (m : Probing flow) (k : list Message -> Probing flow)
  : Probing flow :=
  f <- m ;;
  match f with
  | Return v => ret (Return v)
  | Continue results => k results
  end.

(** [el.innerText?.trim()] *)
Definition trimmedText (el : Element) : option string :=
  option_map trim (innerText el).

(** [a.length > 0] *)
Definition notEmpty {A : Type} (l : list A) : bool :=
  Nat.ltb 0 (List.length l).

(** Strategy 1: is the turn one of the user? *)
Definition isUserTurn (turn : Element) : bool :=
  String.eqb (toLowerCase (tagName turn)) "user-query"
  || classListContains turn "user-turn"
  || match querySelectorIn turn selClassUser with
     | Some _ => true
     | None => false
     end.

(** Strategy 1: the body of the loop over the turns. *)
Definition pushTurn (results : list Message) (turn : Element)
  : list Message :=
  let isUser := isUserTurn turn in
  match trimmedText turn with
  | Some text =>
      if nonEmpty text && Nat.ltb 1 (String.length text)
      then (results ++ [mkMessage (if isUser then "User" else "Gemini") text])%list
      else results
  | None => results
  end.

Definition strategy1 (d : Document) (results : list Message)
  : Probing flow :=
  turns <- queryAll d selTurns ;;
  if notEmpty turns then
    let results := fold_left pushTurn turns results in
    if notEmpty results then ret (Return results)
    else ret (Continue results)
  else ret (Continue results).

(** Strategy 2: an entry of [allTurns]. *)
Record Turn : Type := mkTurn {
  turnRole : string;
  turnContent : option string;
  y : Z
}.

Definition turnOf (r : string) (el : Element) : Turn :=
  mkTurn r (trimmedText el) (top el).

(** [Array.prototype.sort] with a comparison function: the sort is stable,
    so for a comparison that orders the entries its result is the one of
    any stable sort; here by insertion. *)
Fixpoint insertBy {A : Type} (cmp : A -> A -> Z) (x : A) (l : list A)
  : list A :=
  match l with
  | [] => [x]
  | h :: t => if Z.leb (cmp x h) 0 then x :: h :: t else h :: insertBy cmp x t
  end.

Fixpoint sortBy {A : Type} (cmp : A -> A -> Z) (l : list A) : list A :=
  match l with
  | [] => []
  | x :: t => insertBy cmp x (sortBy cmp t)
  end.

(** [(a, b) => a.y - b.y] *)
Definition byY (a b : Turn) : Z := (y a - y b)%Z.

(** [t => t.content && t.content.length > 1] *)
Definition keepTurn (t : Turn) : bool :=
  match turnContent t with
  | Some c => nonEmpty c && Nat.ltb 1 (String.length c)
  | None => false
  end.

(** [({role, content}) => ({role, content})] on a turn that was kept. *)
Definition turnMessage (t : Turn) : Message :=
  mkMessage (turnRole t)
    (match turnContent t with Some c => c | None => EmptyString end).

(** [allTurns] after the sort. *)
Definition sortedTurns (queryEls responseEls : list Element) : list Turn :=
  sortBy byY
    (map (turnOf "User") queryEls ++ map (turnOf "Gemini") responseEls)%list.

(** The entries of the sorted [allTurns] that make up [cleaned]. *)
Definition keptTurns (queryEls responseEls : list Element) : list Turn :=
  filter keepTurn (sortedTurns queryEls responseEls).

Definition strategy2 (d : Document) (results : list Message)
  : Probing flow :=
  queryEls <- queryAll d selQuery ;;
  responseEls <- queryAll d selResponse ;;
  if notEmpty queryEls || notEmpty responseEls then
    let cleaned := map turnMessage (keptTurns queryEls responseEls) in
    if notEmpty cleaned then ret (Return cleaned)
    else ret (Continue results)
  else ret (Continue results).

(** Strategy 3: the body of the loop over the elements with a role. *)
Definition pushData (results : list Message) (el : Element) : list Message :=
  let r := getAttribute el "data-message-author-role" in
  match trimmedText el with
  | Some text =>
      if nonEmpty text
      then (results
            ++ [mkMessage
                  (match r with
                   | Some v => if String.eqb v "user" then "User" else "Gemini"
                   | None => "Gemini"
                   end) text])%list
      else results
  | None => results
  end.

Definition strategy3 (d : Document) (results : list Message)
  : Probing flow :=
  dataEls <- queryAll d selData ;;
  if notEmpty dataEls then
    let results := fold_left pushData dataEls results in
    if notEmpty results then ret (Return results)
    else ret (Continue results)
  else ret (Continue results).

(** [/user|query|human|prompt|request/i] *)
Definition userWords : list string :=
  ["user"; "query"; "human"; "prompt"; "request"].

(** Strategy 4: the body of the loop over the children. *)
Definition pushChild (results : list Message) (el : Element) : list Message :=
  match trimmedText el with
  | Some text =>
      if negb (nonEmpty text) || Nat.ltb (String.length text) 2 then results
      else
        let cls := className el ++ " " ++ tagName el in
        let isUser := testAnyWordI userWords cls in
        (results ++ [mkMessage (if isUser then "User" else "Gemini") text])%list
  | None => results
  end.

(** [document.querySelector('.conversation-container') ||
    document.querySelector('[class*="conversation"]') ||
    document.querySelector('main')] *)
Definition findContainer (d : Document) : Probing (option Element) :=
  orElse (queryOne d selContainer)
    (orElse (queryOne d selConversation) (queryOne d selMain)).

Definition strategy4 (d : Document) (results : list Message)
  : Probing flow :=
  container <- findContainer d ;;
  match container with
  | Some c =>
      let results := fold_left pushChild (children c) results in
      if notEmpty results then ret (Return results)
      else
        match trimmedText c with
        | Some text =>
            if nonEmpty text then ret (Return [mkMessage "Unknown" text])
            else ret (Continue results)
        | None => ret (Continue results)
        end
  | None => ret (Continue results)
  end.

(** The function inside the messages script: the four blocks in the order
    of the text, then [return results]. *)
Definition extractFromPage (d : Document) : Probing (list Message) :=
  f <- andThen (andThen (andThen (strategy1 d []) (strategy2 d))
                  (strategy3 d)) (strategy4 d) ;;
  match f with
  | Return v => ret v
  | Continue results => ret results
  end.

(** *** The blocks as functions of the page *)

(** The messages of the first three blocks on a page, from an empty
    [results]. *)
Definition turnsOf (d : Document) : list Message :=
  fold_left pushTurn (querySelectorAll d selTurns) [].

Definition pairedOf (d : Document) : list Message :=
  map turnMessage
    (keptTurns (querySelectorAll d selQuery) (querySelectorAll d selResponse)).

Definition dataOf (d : Document) : list Message :=
  fold_left pushData (querySelectorAll d selData) [].

(** What the last block returns, by the container it finds. *)
Definition fallbackOf (d : Document) : list Message :=
  match fst (findContainer d) with
  | Some c =>
      let results := fold_left pushChild (children c) [] in
      if notEmpty results then results
      else
        match trimmedText c with
        | Some text => if nonEmpty text then [mkMessage "Unknown" text] else []
        | None => []
        end
  | None => []
  end.

(** [a] is not below [b] on the page. *)
Definition above (a b : Turn) : Prop := (y a <= y b)%Z.

(** The role of a turn that was told apart. *)
Definition knownRole (m : Message) : Prop :=
  role m = "User" \/ role m = "Gemini".

(** The content is not empty once trimmed. *)
Definition hasContent (m : Message) : Prop :=
  nonEmpty (trim (content m)) = true.

(** A message of a turn: a role that was told apart and a content. *)
Definition fromTurn (m : Message) : Prop := knownRole m /\ hasContent m.

(** The script whose result is [messagesJSON]. *)
Definition messagesScript (d : Document) : string :=
  stringify (JArray (map messageJson (fst (extractFromPage d)))).

(** Lines 249-253: the [try] block and its [catch]. *)
Definition readMessages (messagesJSON : string) : outcome json :=
  tryCatch (parse messagesJSON) (JArray []).

(** [extractMessages()] on the page the messages script sees. *)
Definition extractMessages (page : option Document) : outcome json :=
  readMessages (chromeJS page messagesScript).

End Gemini.

(* ================================================================== *)
(** ** formatter.mjs *)
(* ================================================================== *)

Module Formatter.
Import JS JSON.

(** A message as the formatter receives it: the two fields of its type and
    whatever other members the object carries. *)
Record Message : Type := mkMessage {
  role : string;
  content : string;
  others : list (string * json)
}.

(** [({ role, content }) => ({ role, content })] *)
Definition reduced (m : Message) : json :=
  JObject [("role", JString (role m)); ("content", JString (content m))].

(** The object [formatAsJSON] hands to [JSON.stringify]; [now] is the
    result of [new Date().toISOString()]. *)
Definition exported (now title url : string) (messages : list Message)
  : json :=
  JObject
    [("title", JString title);
     ("url", JString url);
     ("exportedAt", JString now);
     ("messages",
       JArray (map reduced (filter (fun m => nonEmpty (content m)) messages)))].

(** [formatAsJSON(title, url, messages)] *)
Definition formatAsJSON (now title url : string) (messages : list Message)
  : string :=
  stringifyIndent 2 (exported now title url messages).

(** [`## ${msg.role}\n\n${msg.content}\n\n---\n\n`] *)
Definition markdownSection (msg : Message) : string :=
  "## " ++ role msg ++ newline ++ newline
  ++ content msg ++ newline ++ newline ++ "---" ++ newline ++ newline.

(** The body of the loop of [formatAsMarkdown]: [md] after one message. *)
Definition addSection (md : string) (msg : Message) : string :=
  if nonEmpty (content msg) then md ++ markdownSection msg else md.

(** [formatAsMarkdown(title, url, messages)] *)
Definition formatAsMarkdown (title url : string) (messages : list Message)
  : string :=
  fold_left addSection messages ("# " ++ title ++ newline ++ newline).

(** The sections of a list of messages, one after the other. *)
Definition sections (messages : list Message) : string :=
  fold_right append EmptyString (map markdownSection messages).

End Formatter.

(* ================================================================== *)
(** ** bin/ai-chat-export.mjs: the names of the files *)
(* ================================================================== *)

Module FileNames.
Import JS.

(** The characters of the class the name is cleaned of: the slash, the
    backslash, the double quote and ? % * : | < >. *)
Definition isForbidden (c : ascii) : bool :=
  codeIn c [47; 92; 63; 37; 42; 58; 124; 34; 60; 62].

(** [name.replace(..., '-')]: a dash for each of these characters. *)
Fixpoint replaceForbidden (s : string) : string :=
  match s with
  | EmptyString => EmptyString
  | String c r =>
      String (if isForbidden c then "-"%char else c) (replaceForbidden r)
  end.

(** [s.replace(/\s+/g, ' ')]: each run of white space becomes one space;
    [inRun] tells that the character before was white space. *)
Fixpoint collapseFrom (inRun : bool) (s : string) : string :=
  match s with
  | EmptyString => EmptyString
  | String c r =>
      if isWhiteSpace c
      then if inRun then collapseFrom true r
           else String " "%char (collapseFrom true r)
      else String c (collapseFrom false r)
  end.

Definition collapseWhiteSpace (s : string) : string := collapseFrom false s.

(** [s.slice(0, n)] *)
Fixpoint slice0 (n : nat) (s : string) : string :=
  match n, s with
  | S k, String c r => String c (slice0 k r)
  | _, _ => EmptyString
  end.

(** [sanitizeFilename(name)] *)
Definition sanitizeFilename (name : string) : string :=
  slice0 200 (trim (collapseWhiteSpace (replaceForbidden name))).

(** A number as a template literal writes it. *)
Definition decimal (n : nat) : string :=
  NilZero.string_of_uint (Nat.to_uint n).

(** [chat.text || `Chat ${i + 1}`] *)
Definition chatTitle (i : nat) (text : string) : string :=
  if nonEmpty text then text else "Chat " ++ decimal (i + 1).

(** [sanitizeFilename(title) || `chat-${i + 1}`] *)
Definition fileName (i : nat) (text : string) : string :=
  let cleaned := sanitizeFilename (chatTitle i text) in
  if nonEmpty cleaned then cleaned else "chat-" ++ decimal (i + 1).

(** A message [extractMessages] returned, as the formatters receive it: an
    object with the two members [role] and [content]. *)
Definition asFormatted (m : Gemini.Message) : Formatter.Message :=
  Formatter.mkMessage (Gemini.role m) (Gemini.content m) [].

(** Every character of [s] passes [p]. *)
Fixpoint allChars (p : ascii -> bool) (s : string) : bool :=
  match s with
  | EmptyString => true
  | String c r => p c && allChars p r
  end.

(** The only white space is the space. *)
Definition plainSpace (c : ascii) : bool :=
  negb (isWhiteSpace c) || Ascii.eqb c " ".

(** No two spaces in a row. *)
Fixpoint noDoubleSpace (s : string) : bool :=
  match s with
  | String a ((String b _) as r) =>
      negb (Ascii.eqb a " " && Ascii.eqb b " ") && noDoubleSpace r
  | _ => true
  end.

(** [s] does not begin with white space. *)
Definition noLeadingSpace (s : string) : bool :=
  match s with
  | String c _ => negb (isWhiteSpace c)
  | EmptyString => true
  end.

(** [c] is not a line feed. *)
Definition notLineFeed (c : ascii) : bool := negb (codeIn c [10]).

End FileNames.

(* ================================================================== *)
(** ** Pages and browsers to run the scripts on *)
(* ================================================================== *)

Module Examples.
Import JS JSON Dom Browser Gemini.

(** An HTML element with a text and no position. *)
Definition el (tag : string) (attrs : list (string * string)) (text : string)
    (kids : list Element) : Element :=
  mkElement tag attrs (Some text) (Some text) "" 0%Z kids.

(** A link of the sidebar. *)
Definition anchor (address text : string) : Element :=
  mkElement "A" [("href", address)] (Some text) (Some text) address 0%Z [].

(** A sidebar with a repeated address, the root of the application with and
    without its last slash, and the four kinds of links that are not chats. *)
Definition sidebarDoc : Document :=
  el "HTML" [] ""
    [anchor "https://gemini.google.com/app/abc" "First chat";
     anchor "https://gemini.google.com/app" "Gemini";
     anchor "https://gemini.google.com/app/" "Gemini";
     anchor "https://gemini.google.com/app/def" "Second chat";
     anchor "https://gemini.google.com/app/abc" "First chat again";
     anchor "https://gemini.google.com/app/download" "Download";
     anchor "https://gemini.google.com/app/settings" "Settings";
     anchor "https://gemini.google.com/app/extensions" "Extensions";
     anchor "https://accounts.google.com/app/x" "Account"].

(** A browser whose sidebar shows the counts of a list one after the other,
    one per scroll, the last one for ever. *)
Definition seqRead (counts : list string) : string * list string :=
  (hd "" counts, counts).

Definition seqScroll (counts : list string) : list string :=
  match counts with
  | _ :: (_ :: _) as rest => rest
  | _ => counts
  end.

Definition specCounts : list string :=
  ["3"; "5"; "5"; "7"; "7"; "7"; "7"; "7"; "7"].

(** The same counts with one 7 less, then 8 for ever. *)
Definition almostCounts : list string :=
  ["3"; "5"; "5"; "7"; "7"; "7"; "7"; "7"; "8"].

(** A browser whose count is never read twice the same: the reads are
    numbered, and an even read gives [a], an odd one [b]. *)
Definition flickerRead (n : nat) : string * nat :=
  (if Nat.even n then "a" else "b", S n).

(** An element at a height of the page. *)
Definition at_ (top : Z) (tag : string) (attrs : list (string * string))
    (text : string) (kids : list Element) : Element :=
  mkElement tag attrs (Some text) (Some text) "" top kids.

(** Three turns that every block of the script would find: they are turn
    elements, query and response elements, they carry a role, and they are
    the children of [main]. *)
Definition turnsDoc : Document :=
  el "HTML" [] "Hi Hello! Bye"
    [el "MAIN" [] "Hi Hello! Bye"
       [el "USER-QUERY" [("data-message-author-role", "user")] "Hi" [];
        el "MODEL-RESPONSE" [("data-message-author-role", "model")]
          "Hello!" [];
        el "USER-QUERY" [("data-message-author-role", "user")] "Bye" []]].

(** Queries in one subtree and responses in another, an empty response
    among them. *)
Definition pairedDoc : Document :=
  el "HTML" [] ""
    [el "DIV" [] ""
       [at_ 10 "DIV" [("class", "query-text")] "first question" [];
        at_ 50 "DIV" [("class", "query-text")] "second question" []];
     el "DIV" [] ""
       [at_ 30 "DIV" [("class", "response-container")] "first answer" [];
        at_ 40 "DIV" [("class", "response-container")] "  " [];
        at_ 70 "DIV" [("class", "response-container")] "second answer" []]].

(** One element that every block of the script finds: a turn element and a
    query element by its tag, with a role, the child of [main]; its text
    has one character. *)
Definition shortNote : Element :=
  el "USER-QUERY" [("data-message-author-role", "user")] "x" [].

Definition noteContainer : Element := el "MAIN" [] "x" [shortNote].

Definition roleDoc : Document := el "HTML" [] "x" [noteContainer].

(** A container with a text of its own and no child with a text. *)
Definition plainDoc : Document :=
  el "HTML" [] "Hello there"
    [el "MAIN" [] " Hello there " [el "BR" [] "" []]].

(** [n] times the character [c]. *)
Fixpoint repeatChar (n : nat) (c : ascii) : string :=
  match n with O => EmptyString | S k => String c (repeatChar k c) end.

(** A title whose 200th character is a space. *)
Definition cutName : string := repeatChar 199 "a" ++ " b".

End Examples.

(* ================================================================== *)
(** * Properties *)
(* ================================================================== *)

(** ** Strings *)

Module StringFacts.
Import JS.

Lemma append_nil_r (s : string) : s ++ "" = s.
Proof. induction s as [|c s IH]; simpl; [reflexivity | now rewrite IH]. Qed.

Lemma append_assoc (a b c : string) : (a ++ b) ++ c = a ++ (b ++ c).
Proof. induction a as [|x a IH]; simpl; [reflexivity | now rewrite IH]. Qed.

Lemma length_append (a b : string) :
  String.length (a ++ b) = String.length a + String.length b.
Proof. induction a as [|x a IH]; simpl; [reflexivity | now rewrite IH]. Qed.

Lemma nonEmpty_length (s : string) :
  nonEmpty s = true <-> 0 < String.length s.
Proof. destruct s; simpl; split; intros; try lia; try discriminate; auto. Qed.

Lemma nonEmpty_false (s : string) : nonEmpty s = false <-> s = "".
Proof. destruct s; simpl; split; intros; congruence. Qed.

(** What [trimStart] leaves does not begin with white space. *)
Lemma trimStart_head (s : string) (c : ascii) (r : string) :
  trimStart s = String c r -> isWhiteSpace c = false.
Proof.
  induction s as [|x s IH]; simpl; [discriminate|].
  destruct (isWhiteSpace x) eqn:E; [exact IH|].
  intros H; injection H as -> _; exact E.
Qed.

Lemma trimEnd_cons (c : ascii) (r : string) :
  isWhiteSpace c = false -> exists r', trimEnd (String c r) = String c r'.
Proof.
  intros H; simpl; rewrite H.
  destruct (trimEnd r); eauto.
Qed.

Lemma trimEnd_idem (s : string) : trimEnd (trimEnd s) = trimEnd s.
Proof.
  induction s as [|c s IH]; simpl; [reflexivity|].
  destruct (trimEnd s) as [|d t] eqn:E.
  - destruct (isWhiteSpace c) eqn:W; simpl; [reflexivity | now rewrite W].
  - change (trimEnd (String c (String d t))) with
      (match trimEnd (String d t) with
       | EmptyString =>
           if isWhiteSpace c then EmptyString else String c EmptyString
       | r' => String c r'
       end).
    rewrite IH. reflexivity.
Qed.

(** [trim] is idempotent. *)
Lemma trim_idem (s : string) : trim (trim s) = trim s.
Proof.
  unfold trim.
  destruct (trimStart s) as [|c r] eqn:E; [reflexivity|].
  pose proof (trimStart_head _ _ _ E) as W.
  destruct (trimEnd_cons c r W) as [r' Hr'].
  rewrite <- (trimEnd_idem (String c r)) at 2.
  rewrite Hr'. simpl trimStart. now rewrite W.
Qed.

Lemma trimEnd_snoc (x : string) (d : ascii) :
  isWhiteSpace d = false -> trimEnd (x ++ String d "") = x ++ String d "".
Proof.
  intros W. induction x as [|c x IH]; simpl.
  - now rewrite W.
  - rewrite IH. destruct x; reflexivity.
Qed.

(** A text between two characters that are not white space is its own
    [trim]. *)
Lemma trim_bracketed (c d : ascii) (m : string) :
  isWhiteSpace c = false -> isWhiteSpace d = false ->
  trim (String c (m ++ String d "")) = String c (m ++ String d "").
Proof.
  intros Wc Wd. unfold trim. simpl trimStart. rewrite Wc.
  exact (trimEnd_snoc (String c m) d Wd).
Qed.

End StringFacts.

(** ** Reading back what [JSON.stringify] wrote *)

Module JSONFacts.
Import JS JSON StringFacts.

Lemma allWs_append (a b : string) : allWs a -> allWs b -> allWs (a ++ b).
Proof. induction a; simpl; intuition. Qed.

Lemma allWs_spaces (n : nat) : allWs (spaces n).
Proof. induction n; simpl; auto. Qed.

Lemma allWs_newline : allWs newline.
Proof. simpl; auto. Qed.

Lemma skipWs_append (w s : string) : allWs w -> skipWs (w ++ s) = skipWs s.
Proof.
  induction w as [|c w IH]; simpl; [reflexivity|].
  intros [H1 H2]. rewrite H1. auto.
Qed.

Lemma parseValue_skip (fuel : nat) (w s : string) :
  allWs w -> parseValue fuel (w ++ s) = parseValue fuel s.
Proof.
  intros H. destruct fuel; simpl; [reflexivity|].
  now rewrite skipWs_append.
Qed.

Lemma parseMembers_skip (fuel : nat) (w s : string) :
  allWs w -> parseMembers fuel (w ++ s) = parseMembers fuel s.
Proof.
  intros H. destruct fuel; simpl; [reflexivity|].
  now rewrite skipWs_append.
Qed.

Lemma parseElements_skip (fuel : nat) (w s : string) :
  allWs w -> parseElements fuel (w ++ s) = parseElements fuel s.
Proof.
  intros H. destruct fuel; simpl; [reflexivity|].
  now rewrite parseValue_skip.
Qed.

(** *** Strings *)

(** Reading one escaped character gives the character back. *)
Lemma parseChars_escapeChar (c : ascii) (t : string) :
  parseChars (escapeChar c ++ t) = consFst c (parseChars t).
Proof.
  destruct c as [[] [] [] [] [] [] [] []]; reflexivity.
Qed.

Lemma parseChars_escape (s rest : string) :
  parseChars (escape s ++ String dquote rest) = Some (s, rest).
Proof.
  induction s as [|c s IH]; [reflexivity|].
  simpl escape. rewrite append_assoc, parseChars_escapeChar, IH.
  reflexivity.
Qed.

(** *** Unfolding the reader by one unit of fuel *)

Lemma parseElements_S (f : nat) (s : string) :
  parseElements (S f) s =
  match parseValue f s with
  | None => None
  | Some (v, r) =>
      match skipWs r with
      | EmptyString => None
      | String c r1 =>
          if Ascii.eqb c "," then
            match parseElements f r1 with
            | Some (vs, rest) => Some (v :: vs, rest)
            | None => None
            end
          else if Ascii.eqb c "]" then Some ([v], r1)
          else None
      end
  end.
Proof. reflexivity. Qed.

Lemma parseMembers_S (f : nat) (s : string) :
  parseMembers (S f) s =
  match stripPrefix (String dquote "") (skipWs s) with
  | None => None
  | Some r =>
      match parseChars r with
      | None => None
      | Some (k, r1) =>
          match stripPrefix ":" (skipWs r1) with
          | None => None
          | Some r2 =>
              match parseValue f r2 with
              | None => None
              | Some (v, r3) =>
                  match skipWs r3 with
                  | EmptyString => None
                  | String c r4 =>
                      if Ascii.eqb c "," then
                        match parseMembers f r4 with
                        | Some (ms, rest) => Some ((k, v) :: ms, rest)
                        | None => None
                        end
                      else if Ascii.eqb c "}" then Some ([(k, v)], r4)
                      else None
                  end
              end
          end
      end
  end.
Proof. reflexivity. Qed.

Lemma parseValue_array (f : nat) (r : string) :
  parseValue (S f) (String "[" r) =
  match stripPrefix "]" (skipWs r) with
  | Some rest => Some (JArray [], rest)
  | None =>
      match parseElements f r with
      | Some (vs, rest) => Some (JArray vs, rest)
      | None => None
      end
  end.
Proof. reflexivity. Qed.

Lemma parseValue_object (f : nat) (r : string) :
  parseValue (S f) (String "{" r) =
  match stripPrefix "}" (skipWs r) with
  | Some rest => Some (JObject [], rest)
  | None =>
      match parseMembers f r with
      | Some (ms, rest) => Some (JObject ms, rest)
      | None => None
      end
  end.
Proof. reflexivity. Qed.

Lemma parseValue_string (f : nat) (r : string) :
  parseValue (S f) (String dquote r) =
  match parseChars r with
  | Some (t, rest) => Some (JString t, rest)
  | None => None
  end.
Proof. reflexivity. Qed.

(** *** The first character of a serialised value *)

Lemma opensValue_append (s t : string) : opensValue s -> opensValue (s ++ t).
Proof.
  intros (c & r & -> & H). exists c, (r ++ t). split; [reflexivity | exact H].
Qed.

Lemma opensValue_quote (k t : string) : opensValue (quote k ++ t).
Proof.
  apply opensValue_append. unfold quote.
  eexists _, _. split; [reflexivity|]. repeat split.
Qed.

Lemma opensValue_wrap_array gap stepback indent partial :
  opensValue (wrap "[" "]" gap stepback indent partial).
Proof.
  unfold wrap. destruct partial; [|destruct (nonEmpty gap)];
    (eexists _, _; split; [reflexivity|]; repeat split).
Qed.

Lemma opensValue_wrap_object gap stepback indent partial :
  opensValue (wrap "{" "}" gap stepback indent partial).
Proof.
  unfold wrap. destruct partial; [|destruct (nonEmpty gap)];
    (eexists _, _; split; [reflexivity|]; repeat split).
Qed.

Lemma opensValue_serialize (gap indent : string) (v : json) :
  noNumbers v -> opensValue (serialize gap indent v).
Proof.
  destruct v as [|[]|l|s|items|members]; simpl; intros H;
    try (eexists _, _; split; [reflexivity|]; repeat split; fail).
  - contradiction.
  - apply opensValue_wrap_array.
  - apply opensValue_wrap_object.
Qed.

Lemma opensValue_concat (sep x : string) (l : list string) :
  opensValue x -> opensValue (concat sep (x :: l)).
Proof.
  intros H. destruct l; simpl; [exact H | now apply opensValue_append].
Qed.

Lemma skipWs_opensValue (s : string) : opensValue s -> skipWs s = s.
Proof. intros (c & r & -> & H & _). simpl. now rewrite H. Qed.

Lemma stripPrefix_cons (a b : ascii) (p s : string) :
  stripPrefix (String a p) (String b s) =
  if Ascii.eqb a b then stripPrefix p s else None.
Proof. reflexivity. Qed.

Lemma not_closed_array (s : string) :
  opensValue s -> stripPrefix "]" (skipWs s) = None.
Proof.
  intros H. rewrite (skipWs_opensValue _ H).
  destruct H as (c & r & -> & _ & H & _).
  rewrite stripPrefix_cons. now rewrite H.
Qed.

Lemma not_closed_object (s : string) :
  opensValue s -> stripPrefix "}" (skipWs s) = None.
Proof.
  intros H. rewrite (skipWs_opensValue _ H).
  destruct H as (c & r & -> & _ & _ & H).
  rewrite stripPrefix_cons. now rewrite H.
Qed.

(** *** Arrays and objects *)

Lemma skipWs_char (c : ascii) (r : string) :
  isJsonWs c = false -> skipWs (String c r) = String c r.
Proof. intros H. simpl. now rewrite H. Qed.

Lemma parseElements_concat (ser : json -> string) (w1 w2 rest : string) :
  allWs w1 -> allWs w2 ->
  forall items fuel,
    items <> [] ->
    Forall (readsBack ser) items ->
    list_sum (map (fun x => S (size x)) items) <= fuel ->
    parseElements fuel
      (concat (String "," w1) (map ser items) ++ w2 ++ String "]" rest)
    = Some (items, rest).
Proof.
  intros W1 W2. induction items as [|v items IH]; intros fuel Hne Hall Hfuel.
  - congruence.
  - inversion Hall as [|? ? Hv Hrest]; subst.
    simpl in Hfuel. destruct fuel as [|f]; [lia|].
    rewrite parseElements_S.
    destruct items as [|v2 items].
    + simpl concat. rewrite (Hv f) by (simpl in Hfuel; lia).
      rewrite skipWs_append by assumption.
      rewrite skipWs_char by reflexivity. reflexivity.
    + change (concat (String "," w1) (map ser (v :: v2 :: items)))
        with (ser v ++ String "," w1 ++ concat (String "," w1) (map ser (v2 :: items))).
      rewrite append_assoc. rewrite (Hv f) by lia.
      change ((String "," w1 ++ concat (String "," w1) (map ser (v2 :: items))) ++ w2 ++ String "]" rest)
        with (String "," ((w1 ++ concat (String "," w1) (map ser (v2 :: items))) ++ w2 ++ String "]" rest)).
      rewrite skipWs_char by reflexivity.
      change (Ascii.eqb "," ",") with true. cbv iota.
      rewrite append_assoc, parseElements_skip by assumption.
      rewrite IH; [reflexivity | discriminate | assumption | lia].
Qed.

Lemma stripPrefix_char (a : ascii) (s : string) :
  stripPrefix (String a "") (String a s) = Some s.
Proof. rewrite stripPrefix_cons, Ascii.eqb_refl. reflexivity. Qed.

Lemma member_shape (gap : string) (ser : json -> string) k v t :
  member gap ser (k, v) ++ t =
  String dquote (escape k ++ String dquote
    (String ":" ((if nonEmpty gap then " " else "") ++ ser v ++ t))).
Proof.
  unfold member, quote. simpl fst. simpl snd.
  rewrite !append_assoc. simpl. rewrite !append_assoc. reflexivity.
Qed.

Lemma parseMembers_concat (gap : string) (ser : json -> string) (w1 w2 rest : string) :
  allWs w1 -> allWs w2 ->
  forall members fuel,
    members <> [] ->
    Forall (fun kv => readsBack ser (snd kv)) members ->
    list_sum (map (fun kv => S (size (snd kv))) members) <= fuel ->
    parseMembers fuel
      (concat (String "," w1) (map (member gap ser) members)
       ++ w2 ++ String "}" rest)
    = Some (members, rest).
Proof.
  intros W1 W2.
  assert (Hsp : allWs (if nonEmpty gap then " " else "")).
  { destruct (nonEmpty gap); simpl; auto. }
  assert (Hone : forall k v f t, readsBack ser v -> size v <= f ->
     match stripPrefix (String dquote "") (skipWs (member gap ser (k, v) ++ t)) with
     | None => None
     | Some r =>
        match parseChars r with
        | None => None
        | Some (k', r1) =>
            match stripPrefix ":" (skipWs r1) with
            | None => None
            | Some r2 => match parseValue f r2 with
                         | None => None
                         | Some (v', r3) => Some (k', v', r3)
                         end
            end
        end
     end = Some (k, v, t)).
  { intros k v f t Hv Hf. rewrite member_shape.
    rewrite skipWs_char by reflexivity.
    rewrite stripPrefix_char, parseChars_escape.
    rewrite skipWs_char by reflexivity.
    rewrite stripPrefix_char.
    rewrite parseValue_skip by assumption.
    rewrite (Hv f) by assumption. reflexivity. }
  induction members as [|[k v] members IH]; intros fuel Hne Hall Hfuel.
  - congruence.
  - inversion Hall as [|? ? Hv Hrest]; subst. simpl in Hv.
    simpl in Hfuel. destruct fuel as [|f]; [lia|].
    rewrite parseMembers_S.
    destruct members as [|kv2 members].
    + simpl concat.
      specialize (Hone k v f (w2 ++ String "}" rest) Hv ltac:(lia)).
      destruct (stripPrefix (String dquote "") _) as [r|]; [|discriminate].
      destruct (parseChars r) as [[k' r1]|]; [|discriminate].
      destruct (stripPrefix ":" _) as [r2|]; [|discriminate].
      destruct (parseValue f r2) as [[v' r3]|]; [|discriminate].
      injection Hone as -> -> ->.
      rewrite skipWs_append by assumption.
      rewrite skipWs_char by reflexivity. reflexivity.
    + change (concat (String "," w1) (map (member gap ser) ((k, v) :: kv2 :: members)))
        with (member gap ser (k, v) ++ String "," w1
              ++ concat (String "," w1) (map (member gap ser) (kv2 :: members))).
      rewrite append_assoc.
      match goal with |- context [member gap ser (k, v) ++ ?t] =>
        specialize (Hone k v f t Hv ltac:(lia)) end.
      destruct (stripPrefix (String dquote "") _) as [r|]; [|discriminate].
      destruct (parseChars r) as [[k' r1]|]; [|discriminate].
      destruct (stripPrefix ":" _) as [r2|]; [|discriminate].
      destruct (parseValue f r2) as [[v' r3]|]; [|discriminate].
      injection Hone as -> -> ->.
      change ((String "," w1 ++ ?x) ++ ?y) with (String "," ((w1 ++ x) ++ y)).
      rewrite skipWs_char by reflexivity.
      change (Ascii.eqb "," ",") with true. cbv iota.
      rewrite append_assoc, parseMembers_skip by assumption.
      rewrite IH; [reflexivity | discriminate | assumption | lia].
Qed.

Lemma noNumbers_array (items : list json) :
  noNumbers (JArray items) -> Forall noNumbers items.
Proof.
  simpl. induction items as [|x l IH]; simpl; intros H; constructor; tauto.
Qed.

Lemma noNumbers_object (members : list (string * json)) :
  noNumbers (JObject members) -> Forall (fun kv => noNumbers (snd kv)) members.
Proof.
  simpl. induction members as [|x l IH]; simpl; intros H; constructor; tauto.
Qed.

Lemma wrap_map {A : Type} (f : A -> string)
    (opening closing gap stepback indent : string) (l : list A) :
  l <> [] ->
  wrap opening closing gap stepback indent (map f l) =
  if nonEmpty gap
  then opening ++ newline ++ indent
       ++ concat ("," ++ newline ++ indent) (map f l)
       ++ newline ++ stepback ++ closing
  else opening ++ concat "," (map f l) ++ closing.
Proof. destruct l; [congruence | reflexivity]. Qed.

Lemma serialize_array gap indent items :
  serialize gap indent (JArray items) =
  wrap "[" "]" gap indent (indent ++ gap)
    (map (serialize gap (indent ++ gap)) items).
Proof. reflexivity. Qed.

Lemma serialize_object gap indent members :
  serialize gap indent (JObject members) =
  wrap "{" "}" gap indent (indent ++ gap)
    (map (member gap (serialize gap (indent ++ gap))) members).
Proof. reflexivity. Qed.

Theorem parseValue_serialize (v : json) :
  noNumbers v ->
  forall gap indent, allWs gap -> allWs indent ->
  readsBack (serialize gap indent) v.
Proof.
  induction v as [|b|l|s|items IH|members IH] using json_induction;
    intros Hn gap indent Wg Wi fuel t Hf;
    (destruct fuel as [|f]; [simpl in Hf; lia|]).
  - reflexivity.
  - destruct b; reflexivity.
  - contradiction.
  - simpl serialize. unfold quote.
    change (String dquote (escape s ++ String dquote "") ++ t)
      with (String dquote ((escape s ++ String dquote "") ++ t)).
    rewrite parseValue_string, append_assoc.
    change (String dquote "" ++ t) with (String dquote t).
    now rewrite parseChars_escape.
  - rewrite serialize_array.
    destruct items as [|v items]; [reflexivity|].
    assert (Hall : Forall (readsBack (serialize gap (indent ++ gap))) (v :: items)).
    { apply noNumbers_array in Hn. rewrite Forall_forall in *.
      intros x Hx. apply IH; auto using allWs_append. }
    assert (Hopen : forall sep u,
      opensValue (concat sep (map (serialize gap (indent ++ gap)) (v :: items)) ++ u)).
    { intros sep u. apply opensValue_append. simpl map.
      apply opensValue_concat, opensValue_serialize.
      apply noNumbers_array in Hn. now inversion Hn. }
    assert (Hsz : list_sum (map (fun x => S (size x)) (v :: items)) <= f).
    { simpl in Hf. simpl. lia. }
    remember (v :: items) as l eqn:El.
    assert (Hne : l <> []) by (subst; discriminate).
    rewrite wrap_map by assumption.
    destruct (nonEmpty gap).
    + match goal with |- parseValue _ ?s = _ =>
        replace s with
          (String "[" ((newline ++ indent ++ gap)
             ++ concat (String "," (newline ++ indent ++ gap))
                  (map (serialize gap (indent ++ gap)) l)
             ++ (newline ++ indent) ++ String "]" t))
          by (repeat (first [progress simpl | rewrite append_assoc]); reflexivity) end.
      rewrite parseValue_array.
      rewrite skipWs_append by auto using allWs_append, allWs_newline.
      rewrite not_closed_array by apply Hopen.
      rewrite parseElements_skip by auto using allWs_append, allWs_newline.
      rewrite parseElements_concat;
        auto using allWs_append, allWs_newline.
    + match goal with |- parseValue _ ?s = _ =>
        replace s with
          (String "[" (concat (String "," "")
                  (map (serialize gap (indent ++ gap)) l)
             ++ "" ++ String "]" t))
          by (repeat (first [progress simpl | rewrite append_assoc]); reflexivity) end.
      rewrite parseValue_array.
      rewrite not_closed_array by apply Hopen.
      rewrite parseElements_concat; simpl; auto.
  - rewrite serialize_object.
    destruct members as [|kv members]; [reflexivity|].
    assert (Hall : Forall (fun kv => readsBack (serialize gap (indent ++ gap)) (snd kv))
                     (kv :: members)).
    { apply noNumbers_object in Hn. rewrite Forall_forall in *.
      intros x Hx. apply IH; auto using allWs_append. }
    assert (Hopen : forall sep u,
      opensValue (concat sep (map (member gap (serialize gap (indent ++ gap)))
                                (kv :: members)) ++ u)).
    { intros sep u. apply opensValue_append. simpl map.
      apply opensValue_concat. unfold member. apply opensValue_quote. }
    assert (Hsz : list_sum (map (fun kv => S (size (snd kv))) (kv :: members)) <= f).
    { simpl in Hf. simpl. lia. }
    remember (kv :: members) as l eqn:El.
    assert (Hne : l <> []) by (subst; discriminate).
    rewrite wrap_map by assumption.
    destruct (nonEmpty gap) eqn:Eg.
    + match goal with |- parseValue _ ?s = _ =>
        replace s with
          (String "{" ((newline ++ indent ++ gap)
             ++ concat (String "," (newline ++ indent ++ gap))
                  (map (member gap (serialize gap (indent ++ gap))) l)
             ++ (newline ++ indent) ++ String "}" t))
          by (repeat (first [progress simpl | rewrite append_assoc]); reflexivity) end.
      rewrite parseValue_object.
      rewrite skipWs_append by auto using allWs_append, allWs_newline.
      rewrite not_closed_object by apply Hopen.
      rewrite parseMembers_skip by auto using allWs_append, allWs_newline.
      rewrite parseMembers_concat;
        auto using allWs_append, allWs_newline.
    + match goal with |- parseValue _ ?s = _ =>
        replace s with
          (String "{" (concat (String "," "")
                  (map (member gap (serialize gap (indent ++ gap))) l)
             ++ "" ++ String "}" t))
          by (repeat (first [progress simpl | rewrite append_assoc]); reflexivity) end.
      rewrite parseValue_object.
      rewrite not_closed_object by apply Hopen.
      rewrite parseMembers_concat; simpl; auto.
Qed.

(** *** The fuel is enough *)

Lemma concat_length (sep : string) (l : list string) :
  1 <= String.length sep ->
  list_sum (map (fun x => S (String.length x)) l)
  <= S (String.length (concat sep l)).
Proof.
  intros Hs. induction l as [|x l IH]; [simpl; lia|].
  destruct l as [|y l]; [simpl; lia|].
  change (concat sep (x :: y :: l)) with (x ++ sep ++ concat sep (y :: l)).
  rewrite !length_append.
  change (list_sum (map (fun x => S (String.length x)) (x :: y :: l)))
    with (S (String.length x)
          + list_sum (map (fun x => S (String.length x)) (y :: l))).
  lia.
Qed.

Lemma wrap_length (o c : ascii) (gap stepback indent : string)
    (partial : list string) :
  list_sum (map (fun x => S (String.length x)) partial)
  < String.length (wrap (String o "") (String c "") gap stepback indent partial).
Proof.
  destruct partial as [|p partial]; [simpl; lia|].
  unfold wrap. destruct (nonEmpty gap).
  - pose proof (concat_length (String "," (newline ++ indent)) (p :: partial)
                  ltac:(simpl; lia)) as H.
    repeat (rewrite length_append || cbn [String.length append]). lia.
  - pose proof (concat_length "," (p :: partial) ltac:(simpl; lia)) as H.
    repeat (rewrite length_append || cbn [String.length append]). lia.
Qed.

Lemma list_sum_le {A : Type} (f g : A -> nat) (l : list A) :
  Forall (fun x => f x <= g x) l ->
  list_sum (map f l) <= list_sum (map g l).
Proof. induction 1; simpl; lia. Qed.

Lemma size_le_length (v : json) :
  noNumbers v ->
  forall gap indent, size v <= String.length (serialize gap indent v).
Proof.
  induction v as [|b|l|s|items IH|members IH] using json_induction;
    intros Hn gap indent.
  - simpl; lia.
  - destruct b; simpl; lia.
  - contradiction.
  - simpl; lia.
  - rewrite serialize_array.
    pose proof (wrap_length "[" "]" gap indent (indent ++ gap)
                  (map (serialize gap (indent ++ gap)) items)) as H.
    rewrite map_map in H.
    assert (list_sum (map (fun x => S (size x)) items)
            <= list_sum (map (fun x => S (String.length
                                 (serialize gap (indent ++ gap) x))) items)).
    { apply list_sum_le. apply noNumbers_array in Hn.
      rewrite Forall_forall in *. intros x Hx.
      specialize (IH x Hx (Hn x Hx) gap (indent ++ gap)). lia. }
    simpl size. lia.
  - rewrite serialize_object.
    pose proof (wrap_length "{" "}" gap indent (indent ++ gap)
                  (map (member gap (serialize gap (indent ++ gap))) members))
      as H.
    rewrite map_map in H.
    assert (list_sum (map (fun kv => S (size (snd kv))) members)
            <= list_sum (map (fun kv => S (String.length
                     (member gap (serialize gap (indent ++ gap)) kv)))
                   members)).
    { apply list_sum_le. apply noNumbers_object in Hn.
      rewrite Forall_forall in *. intros x Hx.
      specialize (IH x Hx (Hn x Hx) gap (indent ++ gap)).
      unfold member. rewrite !length_append. lia. }
    simpl size. lia.
Qed.

(** [JSON.parse] reads back what the serialisation wrote. *)
Theorem parse_serialize (v : json) (gap : string) :
  noNumbers v -> allWs gap -> parse (serialize gap "" v) = Returned v.
Proof.
  intros Hn Wg. unfold parse.
  pose proof (size_le_length v Hn gap "") as Hs.
  pose proof (parseValue_serialize v Hn gap "" Wg I
                (2 * String.length (serialize gap "" v) + 2) ""
                ltac:(lia)) as H.
  rewrite append_nil_r in H. rewrite H. reflexivity.
Qed.

Corollary parse_stringify (v : json) :
  noNumbers v -> parse (stringify v) = Returned v.
Proof. intros H. apply parse_serialize; simpl; auto. Qed.

Corollary parse_stringifyIndent (n : nat) (v : json) :
  noNumbers v -> parse (stringifyIndent n v) = Returned v.
Proof. intros H. apply parse_serialize; auto using allWs_spaces. Qed.

End JSONFacts.

(** ** The bridge and the two readers *)

Module BridgeFacts.
Import JS JSON Dom Browser Gemini StringFacts JSONFacts.

Lemma noNumbers_map_array {A : Type} (f : A -> json) (l : list A) :
  (forall x, noNumbers (f x)) -> noNumbers (JArray (map f l)).
Proof.
  intros H. simpl. induction l as [|x l IH]; simpl; auto.
Qed.

(** The text of an array is not changed by the [trim] of [chromeJS]. *)
Lemma trim_stringify_array (items : list json) :
  trim (stringify (JArray items)) = stringify (JArray items).
Proof.
  unfold stringify. rewrite serialize_array.
  destruct (map (serialize "" ("" ++ "")) items) as [|p partial] eqn:E.
  - reflexivity.
  - unfold wrap. simpl nonEmpty. cbv iota.
    change ("[" ++ concat "," (p :: partial) ++ "]")
      with (String "[" (concat "," (p :: partial) ++ String "]" "")).
    now apply trim_bracketed.
Qed.

(** What comes back from the bridge for a script that writes an array of
    values without numbers is read as that array. *)
Lemma parse_chromeJS_array (d : Document) (items : Document -> list json) :
  noNumbers (JArray (items d)) ->
  parse (chromeJS (Some d) (fun d => stringify (JArray (items d))))
  = Returned (JArray (items d)).
Proof.
  intros H. unfold chromeJS. rewrite trim_stringify_array.
  now apply parse_stringify.
Qed.

Lemma parse_empty : parse "" = Thrown SyntaxError.
Proof. reflexivity. Qed.

End BridgeFacts.

(** ** Discovery: the links that come back *)

Module DiscoveryFacts.
Import JS JSON Dom Browser Gemini StringFacts JSONFacts BridgeFacts.

Lemma filter_filter {A : Type} (p q : A -> bool) (l : list A) :
  filter p (filter q l) = filter (fun x => q x && p x) l.
Proof.
  induction l as [|x l IH]; simpl; [reflexivity|].
  destruct (q x); simpl; [destruct (p x)|]; now rewrite IH.
Qed.

Lemma strIn_app (h : string) (a b : list string) :
  strIn h (a ++ b) = strIn h a || strIn h b.
Proof. apply existsb_app. Qed.

Lemma strIn_In (h : string) (l : list string) : strIn h l = true <-> In h l.
Proof.
  unfold strIn. rewrite existsb_exists. split.
  - intros (x & Hx & E). apply String.eqb_eq in E. now subst.
  - intros H. exists h. split; [assumption | apply String.eqb_refl].
Qed.

(** Membership in a set whose keys are all strings. *)
Lemma setHas_strings (h : string) (seen : list string) :
  setHas (map (fun s => Some (JString s)) seen) (Some (JString h))
  = strIn h seen.
Proof.
  unfold setHas, strIn. induction seen as [|s seen IH]; simpl; [reflexivity|].
  now rewrite IH.
Qed.

Lemma hrefOf_linkJson (l : Link) :
  hrefOf (linkJson l) = Returned (Some (JString (linkHref l))).
Proof. reflexivity. Qed.

(** The filter with the set [seen] keeps the first link of each address
    that is not yet in the set. *)
Lemma filterSeen_links (l : list Link) :
  forall seen,
    filterSeen (map (fun s => Some (JString s)) seen) (map linkJson l)
    = Returned
        (map linkJson
           (filter (fun x => negb (strIn (linkHref x) seen)) (firstSeen l))).
Proof.
  induction l as [|x l IH]; intros seen; [reflexivity|].
  change (map linkJson (x :: l)) with (linkJson x :: map linkJson l).
  cbn [filterSeen]. rewrite hrefOf_linkJson. cbn [bindO].
  rewrite setHas_strings.
  cbn [firstSeen filter].
  destruct (strIn (linkHref x) seen) eqn:E; cbn [negb].
  - rewrite IH, filter_filter. f_equal. f_equal.
    apply filter_ext. intros y.
    destruct (String.eqb_spec (linkHref y) (linkHref x)) as [->|]; cbn.
    + now rewrite E.
    + reflexivity.
  - change [Some (JString (linkHref x))]
      with (map (fun s => Some (JString s)) [linkHref x]).
    rewrite <- map_app, IH. cbn [bindO map].
    rewrite filter_filter. f_equal. f_equal. f_equal.
    apply filter_ext. intros y. rewrite strIn_app. cbn.
    rewrite orb_false_r.
    destruct (String.eqb (linkHref y) (linkHref x)),
             (strIn (linkHref y) seen); reflexivity.
Qed.

Lemma filter_true {A : Type} (l : list A) : filter (fun _ => true) l = l.
Proof. induction l; simpl; congruence. Qed.

Lemma dedupe_links (l : list Link) :
  dedupe (stringify (JArray (map linkJson l)))
  = Returned (JArray (map linkJson (firstSeen l))).
Proof.
  unfold dedupe. rewrite parse_stringify.
  - cbn [bindO]. pose proof (filterSeen_links l []) as H.
    change (map (fun s => Some (JString s)) []) with (@nil (option json)) in H.
    rewrite H. cbn [bindO tryCatch].
    cbn [strIn existsb negb]. now rewrite filter_true.
  - apply (noNumbers_map_array linkJson). intros x. simpl. auto.
Qed.

(** What [collectLinks] returns on a page, and when the bridge fails. *)
Lemma collectLinks_page (d : Document) :
  collectLinks (Some d)
  = Returned (JArray (map linkJson (firstSeen (pageLinks d)))).
Proof.
  unfold collectLinks, chromeJS, linksScript.
  rewrite trim_stringify_array. apply dedupe_links.
Qed.

Lemma collectLinks_failed : collectLinks None = Returned (JArray []).
Proof. reflexivity. Qed.

(** *** The first links of each address *)

Lemma firstSeen_incl (l : list Link) (x : Link) :
  In x (firstSeen l) -> In x l.
Proof.
  induction l as [|a l IH]; simpl; [auto|].
  intros [H|H]; [auto|]. apply filter_In in H. right. tauto.
Qed.

Lemma firstSeen_hrefs (l : list Link) (h : string) :
  In h (map linkHref (firstSeen l)) <-> In h (map linkHref l).
Proof.
  split.
  - rewrite !in_map_iff. intros (x & E & H). exists x.
    split; [assumption | now apply firstSeen_incl].
  - induction l as [|a l IH]; simpl; [auto|].
    destruct (String.eqb_spec h (linkHref a)) as [->|Hne]; [auto|].
    intros [H|H]; [congruence|]. right.
    apply IH in H. rewrite in_map_iff in *.
    destruct H as (x & E & H). exists x. split; [assumption|].
    apply filter_In. split; [assumption|].
    subst h. apply negb_true_iff. now apply String.eqb_neq.
Qed.

(** Dropping links keeps the addresses distinct. *)
Lemma hrefs_distinct_filter (keep : Link -> bool) (links : list Link) :
  NoDup (map linkHref links) -> NoDup (map linkHref (filter keep links)).
Proof.
  induction links as [|x l IH]; simpl; [auto|].
  intros H. inversion H as [|? ? Hx Hl]; subst.
  destruct (keep x); simpl; [|auto].
  constructor; [|auto].
  intros Hin. apply Hx. rewrite in_map_iff in *.
  destruct Hin as (z & E & Hz). exists z. split; [assumption|].
  apply filter_In in Hz. tauto.
Qed.

Lemma firstSeen_NoDup (l : list Link) : NoDup (map linkHref (firstSeen l)).
Proof.
  induction l as [|a l IH]; simpl; constructor.
  - rewrite in_map_iff. intros (y & E & Hy).
    apply filter_In in Hy. destruct Hy as [_ Hy].
    rewrite E, String.eqb_refl in Hy. discriminate.
  - now apply hrefs_distinct_filter.
Qed.

Lemma firstSeen_app (l1 l2 : list Link) :
  firstSeen (l1 ++ l2)
  = (firstSeen l1
     ++ filter (fun y => negb (strIn (linkHref y) (map linkHref l1)))
          (firstSeen l2))%list.
Proof.
  induction l1 as [|x l1 IH]; simpl.
  - now rewrite filter_true.
  - rewrite IH, filter_app, filter_filter. f_equal. f_equal.
    apply filter_ext. intros y. unfold strIn. cbn [existsb].
    rewrite negb_orb. apply andb_comm.
Qed.

(** A link with an address not seen before it is kept, right after the
    links kept before it. *)
Lemma firstSeen_first (pre post : list Link) (x : Link) :
  ~ In (linkHref x) (map linkHref pre) ->
  exists post',
    firstSeen (pre ++ x :: post) = (firstSeen pre ++ x :: post')%list.
Proof.
  intros H. rewrite firstSeen_app. cbn [firstSeen filter].
  destruct (strIn (linkHref x) (map linkHref pre)) eqn:E.
  - apply strIn_In in E. contradiction.
  - cbn [negb]. eauto.
Qed.

End DiscoveryFacts.

(** ** Discovery: what the specification says of the links *)

Module DiscoveryClaims.
Import JS JSON Dom Browser Gemini StringFacts JSONFacts BridgeFacts DiscoveryFacts.

Lemma tryCatch_returns {A : Type} (body : outcome A) (handler : A) :
  exists v, tryCatch body handler = Returned v.
Proof. destruct body; simpl; eauto. Qed.

Lemma collectLinks_links (page : option Document) :
  collectLinks page
  = Returned
      (JArray (map linkJson
         (firstSeen (match page with Some d => pageLinks d | None => [] end)))).
Proof.
  destruct page; [apply collectLinks_page | apply collectLinks_failed].
Qed.

Section Claims.

Context {World : Type}.
Variable readCount : World -> string * World.
Variables scrollStep openSidebar : World -> World.
Variable pageOf : World -> option Document.

(** C3.  Whatever links the script writes, with whatever addresses
    repeated, the filter of lines 121-132 returns the first link of each
    address and no other, and so does [collectChats] for the links of its
    page: no address comes twice, every address is there, and a link whose
    address was not seen before it comes right after the links returned for
    those before it. *)
Theorem collectChats_deduplicates (verbose : bool) (w : World) :
  (forall raw,
     dedupe (stringify (JArray (map linkJson raw)))
     = Returned (JArray (map linkJson (firstSeen raw))))
  /\ collectChats readCount scrollStep openSidebar pageOf verbose w
     = Returned
         (JArray (map linkJson
            (firstSeen
               (keptLinks readCount scrollStep openSidebar pageOf verbose w))))
  /\ (forall links,
        NoDup (map linkHref (firstSeen links))
        /\ (forall h, In h (map linkHref (firstSeen links))
                      <-> In h (map linkHref links))
        /\ (forall pre x post,
              links = (pre ++ x :: post)%list ->
              ~ In (linkHref x) (map linkHref pre) ->
              exists post',
                firstSeen links = (firstSeen pre ++ x :: post')%list)).
Proof.
  split; [exact dedupe_links|]. split; [apply collectLinks_links|].
  intros links. split; [apply firstSeen_NoDup|].
  split; [apply firstSeen_hrefs|].
  intros pre x post -> H. now apply firstSeen_first.
Qed.

(** C4.  No link [collectChats] returns has the address of the application,
    with or without a last slash, or an address with one of the fragments
    [/download], [/settings], [/extensions], [accounts.google.com]. *)
Theorem collectChats_filters (verbose : bool) (w : World) :
  exists links,
    collectChats readCount scrollStep openSidebar pageOf verbose w
      = Returned (JArray (map linkJson links))
    /\ forall l, In l links ->
         linkHref l <> url
         /\ linkHref l <> url ++ "/"
         /\ endsWith (linkHref l) "/app" = false
         /\ endsWith (linkHref l) "/app/" = false
         /\ includes (linkHref l) "/download" = false
         /\ includes (linkHref l) "/settings" = false
         /\ includes (linkHref l) "/extensions" = false
         /\ includes (linkHref l) "accounts.google.com" = false.
Proof.
  exists (firstSeen (keptLinks readCount scrollStep openSidebar pageOf verbose w)).
  split.
  - apply collectLinks_links.
  - intros l Hl. apply firstSeen_incl in Hl.
    assert (Hc : isChatLink l = true).
    { unfold keptLinks in Hl.
      destruct (sidebarPage _ _ _ _ _ _); [|contradiction].
      unfold pageLinks in Hl. apply filter_In in Hl. tauto. }
    unfold isChatLink in Hc.
    repeat (apply andb_true_iff in Hc; destruct Hc as [Hc ?]).
    repeat match goal with H : negb _ = true |- _ =>
             apply negb_true_iff in H end.
    repeat split; try assumption.
    + intros E. rewrite E in Hc. discriminate.
    + intros E. rewrite E in *. discriminate.
Qed.

(** C6.  Neither operation throws: each returns a value whatever text the
    bridge gives back, and the empty array when that text is not JSON, as
    is the empty text of a call that failed. *)
Theorem never_raises :
  (forall verbose w, exists v,
      collectChats readCount scrollStep openSidebar pageOf verbose w
      = Returned v)
  /\ (forall page, exists v, extractMessages page = Returned v)
  /\ (forall text,
        (exists v, dedupe text = Returned v)
        /\ (exists v, readMessages text = Returned v))
  /\ (forall text e,
        parse text = Thrown e ->
        dedupe text = Returned (JArray [])
        /\ readMessages text = Returned (JArray []))
  /\ dedupe "" = Returned (JArray [])
  /\ readMessages "" = Returned (JArray [])
  /\ collectLinks None = Returned (JArray [])
  /\ extractMessages None = Returned (JArray []).
Proof.
  repeat split; try reflexivity.
  - intros verbose w. apply tryCatch_returns.
  - intros page. apply tryCatch_returns.
  - apply tryCatch_returns.
  - apply tryCatch_returns.
  - unfold dedupe. rewrite H. reflexivity.
  - unfold readMessages. rewrite H. reflexivity.
Qed.

End Claims.

Import Examples.

Lemma collectChats_deduplicates_witness :
  collectChats seqRead seqScroll (fun w => w) (fun _ => Some sidebarDoc)
      true specCounts
  = Returned
      (JArray
         [linkJson (mkLink "https://gemini.google.com/app/abc" "First chat");
          linkJson (mkLink "https://gemini.google.com/app/def" "Second chat")])
  /\ exists post',
       firstSeen
         [mkLink "/app/a" "one"; mkLink "/app/b" "two"; mkLink "/app/a" "three";
          mkLink "/app/c" "four"; mkLink "/app/b" "five"]
       = (firstSeen [mkLink "/app/a" "one"; mkLink "/app/b" "two";
                     mkLink "/app/a" "three"]
          ++ mkLink "/app/c" "four" :: post')%list.
Proof.
  pose proof (collectChats_deduplicates seqRead seqScroll (fun w => w)
                (fun _ => Some sidebarDoc) true specCounts) as H.
  destruct H as (_ & H2 & H3).
  split; [exact H2|].
  apply (proj2 (proj2 (H3 _))
           [mkLink "/app/a" "one"; mkLink "/app/b" "two";
            mkLink "/app/a" "three"]
           (mkLink "/app/c" "four") [mkLink "/app/b" "five"] eq_refl).
  simpl. intros [H|[H|[H|[]]]]; discriminate.
Defined.

Lemma collectChats_filters_witness :
  exists links,
    collectChats seqRead seqScroll (fun w => w) (fun _ => Some sidebarDoc)
      true specCounts
      = Returned (JArray (map linkJson links))
    /\ forall l, In l links ->
         linkHref l <> url
         /\ linkHref l <> url ++ "/"
         /\ endsWith (linkHref l) "/app" = false
         /\ endsWith (linkHref l) "/app/" = false
         /\ includes (linkHref l) "/download" = false
         /\ includes (linkHref l) "/settings" = false
         /\ includes (linkHref l) "/extensions" = false
         /\ includes (linkHref l) "accounts.google.com" = false.
Proof.
  exact (collectChats_filters seqRead seqScroll (fun w => w)
           (fun _ => Some sidebarDoc) true specCounts).
Defined.

Lemma never_raises_witness :
  parse "<html>" = Thrown SyntaxError
  /\ dedupe "<html>" = Returned (JArray [])
  /\ readMessages "<html>" = Returned (JArray []).
Proof.
  assert (H : parse "<html>" = Thrown SyntaxError) by reflexivity.
  split; [exact H|].
  exact (proj1 (proj2 (proj2 (proj2
           (never_raises seqRead seqScroll (fun w => w)
              (fun _ => Some sidebarDoc)))))
           "<html>" SyntaxError H).
Defined.

End DiscoveryClaims.

(** ** Discovery: the scroll loop *)

Module ScrollFacts.
Import JS JSON Dom Browser Gemini Examples.

Section Loop.

Context {World : Type}.
Variable readCount : World -> string * World.
Variable scrollStep : World -> World.

Local Abbreviation roundOutcome := (roundOutcome readCount scrollStep).
Local Abbreviation worldAt := (worldAt readCount scrollStep).
Local Abbreviation unchanged := (unchanged readCount scrollStep).
Local Abbreviation stableAt := (stableAt readCount scrollStep).
Local Abbreviation scrollLoop := (scrollLoop readCount scrollStep).

(** One turn of the loop, by the outcome of its round. *)
Lemma scrollLoop_round (verbose : bool) (k i s : nat) (log : list logLine)
    (w : World) :
  exists log1 log2,
    scrollLoop verbose (S k) i s log w =
    if fst (roundOutcome w) then
      if Nat.leb 5 (S s)
      then mkLoopResult (S i) true log1 (snd (roundOutcome w))
      else scrollLoop verbose k (S i) (S s) log (snd (roundOutcome w))
    else scrollLoop verbose k (S i) 0 log2 (snd (roundOutcome w)).
Proof.
  unfold Gemini.roundOutcome. cbn [Gemini.scrollLoop].
  destruct (readCount w) as [countBefore w1].
  destruct (readCount (scrollStep w1)) as [countAfter w3].
  cbn [fst snd]. eauto.
Qed.

(** The loop from round [i] with the counter at [s], when the last [s]
    polls found the count unchanged, the one before them did not, and the
    count was never stable before. *)
Lemma scrollLoop_stops (verbose : bool) (w0 : World) :
  forall remaining i s log,
    i + remaining = 100 ->
    s < 5 -> s <= i ->
    (forall j, i - s <= j < i -> unchanged w0 j = true) ->
    (s < i -> unchanged w0 (i - s - 1) = false) ->
    (forall n, n <= i -> ~ stableAt w0 n) ->
    let r := scrollLoop verbose remaining i s log (worldAt i w0) in
    rounds r <= 100
    /\ (broke r = true -> stableAt w0 (rounds r))
    /\ (forall n, n < rounds r -> ~ stableAt w0 n)
    /\ (broke r = false -> rounds r = 100 /\ ~ stableAt w0 100)
    /\ world r = worldAt (rounds r) w0.
Proof.
  induction remaining as [|k IH]; intros i s log Hi Hs Hsi Hrun Hprev Hnot.
  - cbn. assert (i = 100) by lia. subst i.
    split; [lia|]. split; [discriminate|]. split; [|split].
    + intros n Hn. apply Hnot. lia.
    + intros _. split; [reflexivity | apply Hnot; lia].
    + reflexivity.
  - cbv zeta.
    destruct (scrollLoop_round verbose k i s log (worldAt i w0))
      as (log1 & log2 & ->).
    change (snd (roundOutcome (worldAt i w0))) with (worldAt (S i) w0).
    change (fst (roundOutcome (worldAt i w0))) with (unchanged w0 i).
    destruct (unchanged w0 i) eqn:Eu.
    + destruct (Nat.leb 5 (S s)) eqn:E5.
      * apply Nat.leb_le in E5. cbn [rounds broke world].
        split; [lia|]. split; [|split; [|split]].
        -- intros _. split; [lia|].
           intros j Hj. destruct (Nat.eq_dec j i) as [->|]; [assumption|].
           apply Hrun. lia.
        -- intros n Hn. apply Hnot. lia.
        -- discriminate.
        -- reflexivity.
      * apply Nat.leb_gt in E5.
        apply (IH (S i) (S s) log); try lia.
        -- intros j Hj. destruct (Nat.eq_dec j i) as [->|]; [assumption|].
           apply Hrun. lia.
        -- intros H. replace (S i - S s - 1) with (i - s - 1) by lia.
           apply Hprev. lia.
        -- intros n Hn [H5 Hall].
           destruct (Nat.eq_dec n (S i)) as [->|]; [|apply (Hnot n); [lia|]].
           ++ destruct (Nat.eq_dec s i) as [->|]; [lia|].
              specialize (Hall (i - s - 1) ltac:(lia)).
              rewrite Hprev in Hall by lia. discriminate.
           ++ split; assumption.
    + apply (IH (S i) 0 log2); try lia.
      * intros _. replace (S i - 0 - 1) with i by lia. assumption.
      * intros n Hn [H5 Hall].
        destruct (Nat.eq_dec n (S i)) as [->|]; [|apply (Hnot n); [lia|]].
        -- specialize (Hall i ltac:(lia)). congruence.
        -- split; assumption.
Qed.

End Loop.

(** C2.  The loop of [scrollSidebarToLoadAll] runs at most 100 rounds; it
    leaves by [break] after a round only when the five polls up to that
    round all found the count unchanged, and it never goes past such a
    round; when no five polls in a row found the count unchanged it runs
    its 100 rounds.  On a sidebar that shows the counts 3, 5, 5, 7, 7, 7, 7,
    7, 7, one after each scroll, it stops after round 8, on the fifth poll
    in a row that reads 7 again; the poll of round 2, which read 5 again,
    did not stop it.  With one 7 less the four polls that read 7 again do
    not stop it, and with a count that never reads twice the same it runs
    100 rounds. *)
Theorem scroll_loop_stabilizes :
  (forall (World : Type) (readCount : World -> string * World)
          (scrollStep : World -> World) (verbose : bool) (w : World),
     let r := scrollSidebarToLoadAll readCount scrollStep verbose w in
     rounds r <= 100
     /\ (broke r = true -> stableAt readCount scrollStep w (rounds r))
     /\ (forall n, n < rounds r -> ~ stableAt readCount scrollStep w n)
     /\ (broke r = false ->
         rounds r = 100 /\ ~ stableAt readCount scrollStep w 100)
     /\ world r = worldAt readCount scrollStep (rounds r) w)
  /\ scrollSidebarToLoadAll seqRead seqScroll true specCounts
     = mkLoopResult 8 true
         [Scrolling "5"; Scrolling "7"; FullyLoaded "7"] ["7"]
  /\ map (unchanged seqRead seqScroll specCounts) (seq 0 8)
     = [false; true; false; true; true; true; true; true]
  /\ scrollSidebarToLoadAll seqRead seqScroll true almostCounts
     = mkLoopResult 13 true
         [Scrolling "5"; Scrolling "7"; Scrolling "8"; FullyLoaded "8"] ["8"]
  /\ (let r := scrollSidebarToLoadAll flickerRead (fun n => n) true 0 in
      rounds r = 100 /\ broke r = false).
Proof.
  split; [|repeat split; reflexivity].
  intros World readCount scrollStep verbose w.
  apply (scrollLoop_stops readCount scrollStep verbose w 100 0 0 []);
    try lia.
  intros n Hn [H5 _]. lia.
Qed.

Lemma scroll_loop_stabilizes_witness :
  let r := scrollSidebarToLoadAll seqRead seqScroll false specCounts in
  rounds r = 8
  /\ broke r = true
  /\ stableAt seqRead seqScroll specCounts 8
  /\ forall n, n < 8 -> ~ stableAt seqRead seqScroll specCounts n.
Proof.
  pose proof (proj1 scroll_loop_stabilizes (list string) seqRead seqScroll
                false specCounts) as H.
  cbv zeta in H. destruct H as (_ & H2 & H3 & _).
  cbv zeta. repeat split.
  - exact (proj1 (H2 eq_refl)).
  - exact (proj2 (H2 eq_refl)).
  - exact H3.
Defined.

End ScrollFacts.

(** ** Extraction: the blocks of the script *)

Module ExtractionFacts.
Import JS JSON Dom Browser Gemini StringFacts JSONFacts BridgeFacts.

(** *** The log of a computation *)

Lemma fst_bind {A B : Type} (m : Probing A) (k : A -> Probing B) :
  fst (bind m k) = fst (k (fst m)).
Proof. unfold bind. destruct m as [a l1]. simpl. now destruct (k a). Qed.

Lemma snd_bind {A B : Type} (m : Probing A) (k : A -> Probing B) :
  snd (bind m k) = (snd m ++ snd (k (fst m)))%list.
Proof. unfold bind. destruct m as [a l1]. simpl. now destruct (k a). Qed.

Lemma notEmpty_false {A : Type} (l : list A) : notEmpty l = false -> l = [].
Proof. destruct l; [reflexivity | discriminate]. Qed.

Lemma notEmpty_true {A : Type} (l : list A) : notEmpty l = true -> l <> [].
Proof. destruct l; [discriminate | discriminate]. Qed.

(** *** The four blocks, each by its result and its log *)

Lemma strategy1_run (d : Document) :
  strategy1 d []
  = (if notEmpty (turnsOf d) then Return (turnsOf d) else Continue [],
     [QueryAll selTurns]).
Proof.
  unfold strategy1, queryAll, bind, ret, turnsOf.
  destruct (querySelectorAll d selTurns) as [|t turns] eqn:E.
  - reflexivity.
  - change (notEmpty (t :: turns)) with true. cbv iota.
    destruct (notEmpty (fold_left pushTurn (t :: turns) [])) eqn:N.
    + reflexivity.
    + now rewrite (notEmpty_false _ N).
Qed.

Lemma strategy2_run (d : Document) (results : list Message) :
  strategy2 d results
  = (if notEmpty (pairedOf d) then Return (pairedOf d) else Continue results,
     [QueryAll selQuery; QueryAll selResponse]).
Proof.
  unfold strategy2, queryAll, bind, ret, pairedOf.
  destruct (querySelectorAll d selQuery) as [|q qs] eqn:Eq;
    destruct (querySelectorAll d selResponse) as [|r rs] eqn:Er;
    try change (notEmpty (q :: qs)) with true;
    try change (notEmpty (r :: rs)) with true;
    try change (notEmpty (@nil Element)) with false;
    cbv beta iota delta [orb];
    try (match goal with |- context [notEmpty (map turnMessage ?l)] =>
           destruct (notEmpty (map turnMessage l)) end; reflexivity).
  reflexivity.
Qed.

Lemma strategy3_run (d : Document) :
  strategy3 d []
  = (if notEmpty (dataOf d) then Return (dataOf d) else Continue [],
     [QueryAll selData]).
Proof.
  unfold strategy3, queryAll, bind, ret, dataOf.
  destruct (querySelectorAll d selData) as [|t els] eqn:E.
  - reflexivity.
  - change (notEmpty (t :: els)) with true. cbv iota.
    destruct (notEmpty (fold_left pushData (t :: els) [])) eqn:N.
    + reflexivity.
    + now rewrite (notEmpty_false _ N).
Qed.

Lemma strategy4_run (d : Document) :
  strategy4 d []
  = (if notEmpty (fallbackOf d) then Return (fallbackOf d) else Continue [],
     snd (findContainer d)).
Proof.
  unfold strategy4, fallbackOf, bind, ret.
  destruct (findContainer d) as [[c|] log]; cbn [fst snd].
  - destruct (notEmpty (fold_left pushChild (children c) [])) eqn:N.
    + rewrite N. now rewrite app_nil_r.
    + rewrite (notEmpty_false _ N).
      destruct (trimmedText c) as [text|]; [destruct (nonEmpty text)|];
        rewrite app_nil_r; reflexivity.
  - rewrite app_nil_r. reflexivity.
Qed.

(** The queries of the last block: the second and the third are made only
    when the ones before found nothing. *)
Lemma findContainer_log (d : Document) :
  snd (findContainer d)
  = match querySelector d selContainer with
    | Some _ => [QueryOne selContainer]
    | None =>
        match querySelector d selConversation with
        | Some _ => [QueryOne selContainer; QueryOne selConversation]
        | None =>
            [QueryOne selContainer; QueryOne selConversation;
             QueryOne selMain]
        end
    end.
Proof.
  unfold findContainer, orElse, queryOne, bind, ret.
  destruct (querySelector d selContainer); [reflexivity|].
  destruct (querySelector d selConversation); reflexivity.
Qed.

(** The cascade: the first block that returns decides the result, and the
    log holds the queries of the blocks up to that one. *)
Lemma extractFromPage_run (d : Document) :
  extractFromPage d =
  if notEmpty (turnsOf d) then (turnsOf d, [QueryAll selTurns])
  else if notEmpty (pairedOf d)
  then (pairedOf d, [QueryAll selTurns; QueryAll selQuery; QueryAll selResponse])
  else if notEmpty (dataOf d)
  then (dataOf d,
        [QueryAll selTurns; QueryAll selQuery; QueryAll selResponse;
         QueryAll selData])
  else (fallbackOf d,
        ([QueryAll selTurns; QueryAll selQuery; QueryAll selResponse;
          QueryAll selData] ++ snd (findContainer d))%list).
Proof.
  unfold extractFromPage, andThen.
  rewrite strategy1_run.
  destruct (notEmpty (turnsOf d)); [reflexivity|].
  cbn [bind ret app]. rewrite strategy2_run.
  destruct (notEmpty (pairedOf d)); [reflexivity|].
  cbn [bind ret app]. rewrite strategy3_run.
  destruct (notEmpty (dataOf d)); [reflexivity|].
  cbn [bind ret app]. rewrite strategy4_run.
  destruct (notEmpty (fallbackOf d)) eqn:N.
  - cbn [bind ret app]. now rewrite app_nil_r.
  - cbn [bind ret app]. rewrite (notEmpty_false _ N). now rewrite app_nil_r.
Qed.

(** *** The sort of the second block *)

Lemma insertBy_perm {A : Type} (cmp : A -> A -> Z) (x : A) (l : list A) :
  Permutation (insertBy cmp x l) (x :: l).
Proof.
  induction l as [|h t IH]; simpl; [reflexivity|].
  destruct (Z.leb (cmp x h) 0); [reflexivity|].
  rewrite IH. apply perm_swap.
Qed.

Lemma sortBy_perm {A : Type} (cmp : A -> A -> Z) (l : list A) :
  Permutation (sortBy cmp l) l.
Proof.
  induction l as [|x l IH]; simpl; [reflexivity|].
  rewrite insertBy_perm. now constructor.
Qed.

Lemma insertBy_sorted (x : Turn) (l : list Turn) :
  StronglySorted above l -> StronglySorted above (insertBy byY x l).
Proof.
  induction 1 as [|h t Hs IH Hh]; simpl.
  - repeat constructor.
  - unfold byY at 1. destruct (Z.leb_spec (y x - y h) 0) as [Hle|Hgt].
    + constructor; [now constructor|].
      constructor; [unfold above; lia|].
      eapply Forall_impl; [|exact Hh]. unfold above. intros; lia.
    + constructor; [exact IH|].
      eapply Permutation_Forall; [symmetry; apply insertBy_perm|].
      constructor; [unfold above; lia | exact Hh].
Qed.

Lemma sortBy_sorted (l : list Turn) : StronglySorted above (sortBy byY l).
Proof.
  induction l as [|x l IH]; simpl; [constructor | now apply insertBy_sorted].
Qed.

Lemma filter_sorted {A : Type} (R : A -> A -> Prop) (p : A -> bool)
    (l : list A) :
  StronglySorted R l -> StronglySorted R (filter p l).
Proof.
  induction 1 as [|h t Hs IH Hh]; simpl; [constructor|].
  destruct (p h); [|exact IH].
  constructor; [exact IH|].
  rewrite Forall_forall in *. intros z Hz. apply Hh.
  apply filter_In in Hz. tauto.
Qed.

(** A turn of the sorted list comes from a query element, as a turn of the
    user, or from a response element, as a turn of Gemini. *)
Lemma sortedTurns_source (queryEls responseEls : list Element) (t : Turn) :
  In t (sortedTurns queryEls responseEls) ->
  exists el,
    (In el queryEls /\ t = turnOf "User" el)
    \/ (In el responseEls /\ t = turnOf "Gemini" el).
Proof.
  unfold sortedTurns. intros H.
  apply (Permutation_in _ (sortBy_perm byY _)) in H.
  apply in_app_or in H. rewrite !in_map_iff in H.
  destruct H as [(el & <- & H)|(el & <- & H)]; exists el; auto.
Qed.

(** *** Roles and contents *)

Lemma trimmedText_hasContent (el : Element) (text r : string) :
  trimmedText el = Some text -> nonEmpty text = true ->
  hasContent (mkMessage r text).
Proof.
  unfold trimmedText, hasContent. destruct (innerText el) as [s|];
    [|discriminate].
  simpl. intros [= <-] H. now rewrite trim_idem.
Qed.

Lemma fold_left_Forall {A B : Type} (P : A -> Prop)
    (f : list A -> B -> list A) (l : list B) :
  (forall acc x, Forall P acc -> Forall P (f acc x)) ->
  forall acc, Forall P acc -> Forall P (fold_left f l acc).
Proof.
  intros Hf. induction l as [|x l IH]; simpl; auto.
Qed.

Lemma Forall_snoc {A : Type} (P : A -> Prop) (l : list A) (x : A) :
  Forall P l -> P x -> Forall P (l ++ [x]).
Proof. intros Hl Hx. apply Forall_app. split; auto. Qed.

Lemma pushTurn_fromTurn (acc : list Message) (turn : Element) :
  Forall fromTurn acc -> Forall fromTurn (pushTurn acc turn).
Proof.
  intros H. unfold pushTurn.
  destruct (trimmedText turn) as [text|] eqn:E; [|exact H].
  destruct (nonEmpty text) eqn:N; [|exact H].
  destruct (Nat.ltb 1 (String.length text)); [|exact H].
  apply Forall_snoc; [exact H|]. split.
  - unfold knownRole. simpl. destruct (isUserTurn turn); auto.
  - eapply trimmedText_hasContent; eassumption.
Qed.

Lemma pushData_fromTurn (acc : list Message) (el : Element) :
  Forall fromTurn acc -> Forall fromTurn (pushData acc el).
Proof.
  intros H. unfold pushData.
  destruct (trimmedText el) as [text|] eqn:E; [|exact H].
  destruct (nonEmpty text) eqn:N; [|exact H].
  apply Forall_snoc; [exact H|]. split.
  - unfold knownRole. simpl.
    destruct (getAttribute el "data-message-author-role") as [v|]; auto.
    destruct (String.eqb v "user"); auto.
  - eapply trimmedText_hasContent; eassumption.
Qed.

Lemma pushChild_fromTurn (acc : list Message) (el : Element) :
  Forall fromTurn acc -> Forall fromTurn (pushChild acc el).
Proof.
  intros H. unfold pushChild.
  destruct (trimmedText el) as [text|] eqn:E; [|exact H].
  destruct (nonEmpty text) eqn:N; [|exact H].
  destruct (Nat.ltb (String.length text) 2); [exact H|].
  cbv beta zeta iota delta [negb orb].
  apply Forall_snoc; [exact H|]. split.
  - unfold knownRole. cbn [role].
    destruct (testAnyWordI userWords (className el ++ " " ++ tagName el));
      auto.
  - eapply trimmedText_hasContent; eassumption.
Qed.

Lemma turnsOf_fromTurn (d : Document) : Forall fromTurn (turnsOf d).
Proof.
  apply fold_left_Forall; [apply pushTurn_fromTurn | constructor].
Qed.

Lemma dataOf_fromTurn (d : Document) : Forall fromTurn (dataOf d).
Proof.
  apply fold_left_Forall; [apply pushData_fromTurn | constructor].
Qed.

Lemma pairedOf_fromTurn (d : Document) : Forall fromTurn (pairedOf d).
Proof.
  unfold pairedOf, keptTurns. rewrite Forall_forall. intros m Hm.
  apply in_map_iff in Hm. destruct Hm as (t & <- & Ht).
  apply filter_In in Ht. destruct Ht as [Hin Hk].
  apply sortedTurns_source in Hin.
  unfold keepTurn in Hk. unfold turnMessage.
  destruct Hin as (el & [[_ ->]|[_ ->]]); cbn [turnOf turnContent turnRole] in *;
    (destruct (trimmedText el) as [c|] eqn:E; [|discriminate];
     apply andb_true_iff in Hk; destruct Hk as [Hk _];
     split; [unfold knownRole; simpl; auto
            | eapply trimmedText_hasContent; eassumption]).
Qed.

(** The last block gives turns that were told apart, or the text of the
    container as one message of role [Unknown]. *)
Lemma fallbackOf_cases (d : Document) :
  Forall fromTurn (fallbackOf d)
  \/ exists c text,
       fst (findContainer d) = Some c
       /\ fold_left pushChild (children c) [] = []
       /\ trimmedText c = Some text
       /\ nonEmpty text = true
       /\ fallbackOf d = [mkMessage "Unknown" text].
Proof.
  unfold fallbackOf.
  destruct (fst (findContainer d)) as [c|] eqn:Ec; [|left; constructor].
  cbv zeta.
  destruct (notEmpty (fold_left pushChild (children c) [])) eqn:N.
  - left. apply fold_left_Forall; [apply pushChild_fromTurn | constructor].
  - destruct (trimmedText c) as [text|] eqn:Et; [|left; constructor].
    destruct (nonEmpty text) eqn:Nt; [|left; constructor].
    right. exists c, text. repeat split; auto using notEmpty_false.
Qed.

Lemma fallbackOf_hasContent (d : Document) : Forall hasContent (fallbackOf d).
Proof.
  destruct (fallbackOf_cases d) as [H|(c & text & _ & _ & Et & Nt & ->)].
  - eapply Forall_impl; [|exact H]. now intros m [_ Hm].
  - constructor; [|constructor]. eapply trimmedText_hasContent; eassumption.
Qed.

(** *** The page, the script and the reader together *)

Lemma extractMessages_page (d : Document) :
  extractMessages (Some d)
  = Returned (JArray (map messageJson (fst (extractFromPage d)))).
Proof.
  unfold extractMessages, readMessages, chromeJS, messagesScript.
  rewrite trim_stringify_array, parse_stringify; [reflexivity|].
  apply (noNumbers_map_array messageJson). intros m. simpl. auto.
Qed.

Lemma extractMessages_failed : extractMessages None = Returned (JArray []).
Proof. reflexivity. Qed.

End ExtractionFacts.

(** ** Extraction: what the specification says of the messages *)

Module ExtractionClaims.
Import JS JSON Dom Browser Gemini StringFacts JSONFacts BridgeFacts.
Import ExtractionFacts Examples.

Lemma extract_hasContent (d : Document) :
  Forall hasContent (fst (extractFromPage d)).
Proof.
  rewrite extractFromPage_run.
  assert (H : forall l, Forall fromTurn l -> Forall hasContent l).
  { intros l Hl. eapply Forall_impl; [|exact Hl]. now intros m [_ Hm]. }
  destruct (notEmpty (turnsOf d)); [apply H, turnsOf_fromTurn|].
  destruct (notEmpty (pairedOf d)); [apply H, pairedOf_fromTurn|].
  destruct (notEmpty (dataOf d)); [apply H, dataOf_fromTurn|].
  apply fallbackOf_hasContent.
Qed.

(** What [extractMessages] returns, as messages. *)
Lemma extractMessages_messages (page : option Document) :
  extractMessages page
  = Returned
      (JArray (map messageJson
         (match page with
          | Some d => fst (extractFromPage d)
          | None => []
          end))).
Proof.
  destruct page; [apply extractMessages_page | apply extractMessages_failed].
Qed.

(** C1.  The script runs its four blocks in the order of the text.  Its
    result is the one of the first block that returns, a block returns only
    a list that is not empty and has no empty content, and the queries made
    are those of the blocks up to that one: when the first block returns,
    the only query made is the one for the turn elements, and
    [extractMessages] returns the messages of that block. *)
Theorem cascade_precedence (d : Document) :
  extractFromPage d =
    match strategy1 d [] with
    | (Return v, l1) => (v, l1)
    | (Continue _, l1) =>
        match strategy2 d [] with
        | (Return v, l2) => (v, (l1 ++ l2)%list)
        | (Continue _, l2) =>
            match strategy3 d [] with
            | (Return v, l3) => (v, (l1 ++ l2 ++ l3)%list)
            | (Continue _, l3) =>
                match strategy4 d [] with
                | (Return v, l4) => (v, (l1 ++ l2 ++ l3 ++ l4)%list)
                | (Continue _, l4) => ([], (l1 ++ l2 ++ l3 ++ l4)%list)
                end
            end
        end
    end
  /\ (forall block v l,
        In block [strategy1; strategy2; strategy3; strategy4] ->
        block d [] = (Return v, l) -> v <> [] /\ Forall hasContent v)
  /\ (forall block r l,
        In block [strategy1; strategy2; strategy3; strategy4] ->
        block d [] = (Continue r, l) -> r = [])
  /\ snd (strategy1 d []) = [QueryAll selTurns]
  /\ snd (strategy2 d []) = [QueryAll selQuery; QueryAll selResponse]
  /\ snd (strategy3 d []) = [QueryAll selData]
  /\ (forall q, In q (snd (strategy4 d [])) ->
        In q [QueryOne selContainer; QueryOne selConversation;
              QueryOne selMain])
  /\ (forall v l,
        strategy1 d [] = (Return v, l) ->
        extractFromPage d = (v, [QueryAll selTurns])
        /\ extractMessages (Some d) = Returned (JArray (map messageJson v))).
Proof.
  assert (Hc : forall l, Forall fromTurn l -> Forall hasContent l).
  { intros l Hl. eapply Forall_impl; [|exact Hl]. now intros m [_ Hm]. }
  split; [|split; [|split; [|split; [|split; [|split; [|split]]]]]].
  - rewrite extractFromPage_run, strategy1_run, strategy2_run,
      strategy3_run, strategy4_run.
    destruct (notEmpty (turnsOf d)); [reflexivity|].
    destruct (notEmpty (pairedOf d)); [reflexivity|].
    destruct (notEmpty (dataOf d)); [reflexivity|].
    destruct (notEmpty (fallbackOf d)) eqn:N; [reflexivity|].
    now rewrite (notEmpty_false _ N).
  - intros block v l Hb.
    repeat (destruct Hb as [<-|Hb]); [| | | |contradiction].
    + rewrite strategy1_run. destruct (notEmpty (turnsOf d)) eqn:N;
        intros [= <- _]. split; [now apply notEmpty_true|].
      apply Hc, turnsOf_fromTurn.
    + rewrite strategy2_run. destruct (notEmpty (pairedOf d)) eqn:N;
        intros [= <- _]. split; [now apply notEmpty_true|].
      apply Hc, pairedOf_fromTurn.
    + rewrite strategy3_run. destruct (notEmpty (dataOf d)) eqn:N;
        intros [= <- _]. split; [now apply notEmpty_true|].
      apply Hc, dataOf_fromTurn.
    + rewrite strategy4_run. destruct (notEmpty (fallbackOf d)) eqn:N;
        intros [= <- _]. split; [now apply notEmpty_true|].
      apply fallbackOf_hasContent.
  - intros block r l Hb.
    repeat (destruct Hb as [<-|Hb]); [| | | |contradiction].
    + rewrite strategy1_run. destruct (notEmpty (turnsOf d));
        now intros [= <- _].
    + rewrite strategy2_run. destruct (notEmpty (pairedOf d));
        now intros [= <- _].
    + rewrite strategy3_run. destruct (notEmpty (dataOf d));
        now intros [= <- _].
    + rewrite strategy4_run. destruct (notEmpty (fallbackOf d));
        now intros [= <- _].
  - now rewrite strategy1_run.
  - now rewrite strategy2_run.
  - now rewrite strategy3_run.
  - rewrite strategy4_run. cbn [snd]. rewrite findContainer_log.
    intros q.
    destruct (querySelector d selContainer);
      [|destruct (querySelector d selConversation)]; simpl; tauto.
  - intros v l. rewrite strategy1_run.
    destruct (notEmpty (turnsOf d)) eqn:N; intros [= <- _].
    assert (E : extractFromPage d = (turnsOf d, [QueryAll selTurns])).
    { rewrite extractFromPage_run. now rewrite N. }
    split; [exact E|].
    rewrite extractMessages_page. now rewrite E.
Qed.

(** On a page that every block would answer, the turns come from the first
    block and no other query is made. *)
Lemma cascade_precedence_witness :
  strategy1 turnsDoc []
  = (Return [mkMessage "User" "Hi"; mkMessage "Gemini" "Hello!";
             mkMessage "User" "Bye"], [QueryAll selTurns])
  /\ (exists v2 v3 v4,
        fst (strategy2 turnsDoc []) = Return v2
        /\ fst (strategy3 turnsDoc []) = Return v3
        /\ fst (strategy4 turnsDoc []) = Return v4)
  /\ extractFromPage turnsDoc
     = ([mkMessage "User" "Hi"; mkMessage "Gemini" "Hello!";
         mkMessage "User" "Bye"], [QueryAll selTurns])
  /\ extractMessages (Some turnsDoc)
     = Returned
         (JArray
            (map messageJson
               [mkMessage "User" "Hi"; mkMessage "Gemini" "Hello!";
                mkMessage "User" "Bye"])).
Proof.
  assert (H : strategy1 turnsDoc []
              = (Return [mkMessage "User" "Hi"; mkMessage "Gemini" "Hello!";
                         mkMessage "User" "Bye"], [QueryAll selTurns]))
    by reflexivity.
  split; [exact H|]. split.
  - eexists _, _, _. repeat split; reflexivity.
  - exact (proj2 (proj2 (proj2 (proj2 (proj2 (proj2 (proj2
             (cascade_precedence turnsDoc))))))) _ _ H).
Defined.

(** C5.  No message [extractMessages] returns has a content that is empty
    once trimmed, from whichever block it comes. *)
Theorem no_empty_content (page : option Document) :
  exists messages,
    extractMessages page = Returned (JArray (map messageJson messages))
    /\ forall m, In m messages ->
         trim (content m) <> "" /\ content m <> "".
Proof.
  eexists. split; [apply extractMessages_messages|].
  intros m Hm.
  assert (H : hasContent m).
  { destruct page as [d|]; [|contradiction].
    pose proof (extract_hasContent d) as Hall.
    rewrite Forall_forall in Hall. now apply Hall. }
  unfold hasContent in H. split.
  - intros E. rewrite E in H. discriminate.
  - intros E. rewrite E in H. discriminate.
Qed.

(** C9.  A message [extractMessages] returns has the role [User], [Gemini]
    or [Unknown]; the first three blocks and the loop of the fourth give
    only the first two, and a message of role [Unknown] is the only message
    returned: the trimmed text of the container, when the blocks before
    found nothing and no child of the container gave a message.  And the
    last resort does return it: when the container has a text and no child
    gave a message, the fourth block returns that one message of role
    [Unknown], and so does [extractMessages] when the blocks before found
    nothing. *)
Theorem roles_of_messages (page : option Document) :
  exists messages,
    extractMessages page = Returned (JArray (map messageJson messages))
    /\ (forall m, In m messages ->
          role m = "User" \/ role m = "Gemini" \/ role m = "Unknown")
    /\ (forall m, In m messages -> role m = "Unknown" ->
          exists d c text,
            page = Some d
            /\ turnsOf d = [] /\ pairedOf d = [] /\ dataOf d = []
            /\ fst (findContainer d) = Some c
            /\ fold_left pushChild (children c) [] = []
            /\ trimmedText c = Some text
            /\ messages = [mkMessage "Unknown" text])
    /\ (forall d c text,
          fst (findContainer d) = Some c ->
          fold_left pushChild (children c) [] = [] ->
          trimmedText c = Some text -> text <> "" ->
          fst (strategy4 d []) = Return [mkMessage "Unknown" text])
    /\ (forall d c text,
          page = Some d ->
          turnsOf d = [] -> pairedOf d = [] -> dataOf d = [] ->
          fst (findContainer d) = Some c ->
          fold_left pushChild (children c) [] = [] ->
          trimmedText c = Some text -> text <> "" ->
          messages = [mkMessage "Unknown" text]
          /\ extractMessages page
             = Returned
                 (JArray
                    [JObject [("role", JString "Unknown");
                              ("content", JString text)]])).
Proof.
  assert (Hlast : forall d c text,
            fst (findContainer d) = Some c ->
            fold_left pushChild (children c) [] = [] ->
            trimmedText c = Some text -> text <> "" ->
            fallbackOf d = [mkMessage "Unknown" text]).
  { intros d c text Ec Ef Et Ht. unfold fallbackOf.
    rewrite Ec. cbv zeta. rewrite Ef, Et.
    destruct text; [congruence | reflexivity]. }
  exists (match page with
          | Some d => fst (extractFromPage d)
          | None => []
          end).
  split; [apply extractMessages_messages|].
  assert (Hk : forall l m, Forall fromTurn l -> In m l ->
                 (role m = "User" \/ role m = "Gemini")
                 /\ role m <> "Unknown").
  { intros l m Hl Hm. rewrite Forall_forall in Hl.
    destruct (Hl m Hm) as [[E|E] _]; rewrite E; split; auto; discriminate. }
  assert (Hfirst :
    (forall m,
       In m (match page with
             | Some d => fst (extractFromPage d)
             | None => []
             end) ->
       role m = "User" \/ role m = "Gemini" \/ role m = "Unknown")
    /\ (forall m,
          In m (match page with
                | Some d => fst (extractFromPage d)
                | None => []
                end) ->
          role m = "Unknown" ->
          exists d c text,
            page = Some d
            /\ turnsOf d = [] /\ pairedOf d = [] /\ dataOf d = []
            /\ fst (findContainer d) = Some c
            /\ fold_left pushChild (children c) [] = []
            /\ trimmedText c = Some text
            /\ match page with
               | Some d => fst (extractFromPage d)
               | None => []
               end = [mkMessage "Unknown" text])).
  { destruct page as [d|]; [|split; intros m []].
    rewrite extractFromPage_run.
    destruct (notEmpty (turnsOf d)) eqn:N1; cbn [fst].
    { split; intros m Hm; destruct (Hk _ m (turnsOf_fromTurn d) Hm); tauto. }
    destruct (notEmpty (pairedOf d)) eqn:N2; cbn [fst].
    { split; intros m Hm; destruct (Hk _ m (pairedOf_fromTurn d) Hm); tauto. }
    destruct (notEmpty (dataOf d)) eqn:N3; cbn [fst].
    { split; intros m Hm; destruct (Hk _ m (dataOf_fromTurn d) Hm); tauto. }
    destruct (fallbackOf_cases d) as [H|(c & text & Ec & Ef & Et & Nt & E)].
    - split; intros m Hm; destruct (Hk _ m H Hm); tauto.
    - rewrite E. split.
      + intros m [<-|[]]. auto.
      + intros m _ _. exists d, c, text.
        repeat split; auto using notEmpty_false. }
  destruct Hfirst as [Hroles Hunknown].
  split; [exact Hroles|]. split; [exact Hunknown|]. split.
  - intros d c text Ec Ef Et Ht.
    rewrite strategy4_run, (Hlast d c text Ec Ef Et Ht). reflexivity.
  - intros d c text -> E1 E2 E3 Ec Ef Et Ht.
    assert (E : fst (extractFromPage d) = [mkMessage "Unknown" text]).
    { rewrite extractFromPage_run, E1, E2, E3.
      cbn. exact (Hlast d c text Ec Ef Et Ht). }
    split; [exact E|].
    rewrite extractMessages_page, E. reflexivity.
Qed.

(** On a page whose container has a text of its own and no child with a
    text, the message returned is that text with the role [Unknown]. *)
Lemma roles_of_messages_witness :
  fst (strategy4 plainDoc []) = Return [mkMessage "Unknown" "Hello there"]
  /\ extractMessages (Some plainDoc)
     = Returned
         (JArray
            [JObject [("role", JString "Unknown");
                      ("content", JString "Hello there")]])
  /\ exists messages,
       messages = [mkMessage "Unknown" "Hello there"]
       /\ extractMessages (Some plainDoc)
          = Returned (JArray (map messageJson messages))
       /\ (forall m, In m messages ->
             role m = "User" \/ role m = "Gemini" \/ role m = "Unknown")
       /\ (forall m, In m messages -> role m = "Unknown" ->
             exists d c text,
               Some plainDoc = Some d
               /\ turnsOf d = [] /\ pairedOf d = [] /\ dataOf d = []
               /\ fst (findContainer d) = Some c
               /\ fold_left pushChild (children c) [] = []
               /\ trimmedText c = Some text
               /\ messages = [mkMessage "Unknown" text]).
Proof.
  destruct (roles_of_messages (Some plainDoc))
    as (messages & E & Hroles & Hunknown & Hblock & Hlast).
  assert (Hnot : "Hello there" <> "") by discriminate.
  destruct (Hlast plainDoc (el "MAIN" [] " Hello there " [el "BR" [] "" []])
              "Hello there" eq_refl eq_refl eq_refl eq_refl eq_refl eq_refl
              eq_refl Hnot) as [Em Ex].
  split.
  - exact (Hblock plainDoc (el "MAIN" [] " Hello there " [el "BR" [] "" []])
             "Hello there" eq_refl eq_refl eq_refl Hnot).
  - split; [exact Ex|].
    exists messages. split; [exact Em|].
    split; [exact E|]. split; [exact Hroles | exact Hunknown].
Defined.

Lemma no_empty_content_witness :
  exists messages,
    extractMessages (Some plainDoc)
      = Returned (JArray (map messageJson messages))
    /\ forall m, In m messages ->
         trim (content m) <> "" /\ content m <> "".
Proof. exact (no_empty_content (Some plainDoc)). Defined.

(** C7.  When the second block returns, its messages are the turns of the
    query elements, as turns of the user, and of the response elements, as
    turns of Gemini, put in one list, sorted by the top of their element
    from the smallest, then without the turns of no or too short a content:
    the messages come in the order of the tops of their elements. *)
Theorem paired_regions_sorted (d : Document) (results messages : list Message)
    (log : list probe) :
  strategy2 d results = (Return messages, log) ->
  let queryEls := querySelectorAll d selQuery in
  let responseEls := querySelectorAll d selResponse in
  Permutation (sortedTurns queryEls responseEls)
    (map (turnOf "User") queryEls ++ map (turnOf "Gemini") responseEls)
  /\ StronglySorted above (sortedTurns queryEls responseEls)
  /\ keptTurns queryEls responseEls
     = filter keepTurn (sortedTurns queryEls responseEls)
  /\ messages = map turnMessage (keptTurns queryEls responseEls)
  /\ StronglySorted above (keptTurns queryEls responseEls)
  /\ (forall t, In t (keptTurns queryEls responseEls) ->
        content (turnMessage t) <> ""
        /\ exists el,
             y t = top el
             /\ turnContent t = Some (content (turnMessage t))
             /\ ((In el queryEls /\ t = turnOf "User" el)
                 \/ (In el responseEls /\ t = turnOf "Gemini" el))).
Proof.
  intros H queryEls responseEls.
  split; [apply sortBy_perm|].
  split; [apply sortBy_sorted|].
  split; [reflexivity|].
  split.
  - rewrite strategy2_run in H.
    destruct (notEmpty (pairedOf d)); now inversion H.
  - split; [apply filter_sorted, sortBy_sorted|].
    intros t Ht. apply filter_In in Ht. destruct Ht as [Hin Hk].
    apply sortedTurns_source in Hin.
    unfold keepTurn in Hk. unfold turnMessage.
    destruct (turnContent t) as [c|] eqn:Ec; [|discriminate].
    cbn [content]. split.
    + intros ->. discriminate.
    + destruct Hin as (el & Hel). exists el.
      split; [|split; [reflexivity | exact Hel]].
      destruct Hel as [[_ ->]|[_ ->]]; reflexivity.
Qed.

Lemma paired_regions_sorted_witness :
  strategy2 pairedDoc []
  = (Return [mkMessage "User" "first question";
             mkMessage "Gemini" "first answer";
             mkMessage "User" "second question";
             mkMessage "Gemini" "second answer"],
     [QueryAll selQuery; QueryAll selResponse])
  /\ map y (keptTurns (querySelectorAll pairedDoc selQuery)
              (querySelectorAll pairedDoc selResponse))
     = [10; 30; 50; 70]%Z
  /\ StronglySorted above
       (keptTurns (querySelectorAll pairedDoc selQuery)
          (querySelectorAll pairedDoc selResponse)).
Proof.
  assert (H : strategy2 pairedDoc []
              = (Return [mkMessage "User" "first question";
                         mkMessage "Gemini" "first answer";
                         mkMessage "User" "second question";
                         mkMessage "Gemini" "second answer"],
                 [QueryAll selQuery; QueryAll selResponse]))
    by reflexivity.
  split; [exact H|]. split; [reflexivity|].
  exact (proj1 (proj2 (proj2 (proj2 (proj2
           (paired_regions_sorted pairedDoc [] _ _ H)))))).
Defined.

(** C10.  The blocks do not ask the same length of a text.  The first, the
    second and the loop of the fourth drop an element whose trimmed text
    has one character or none; the third keeps every element whose trimmed
    text is not empty.  So there is a page with an element of one character
    that all four blocks find: the first and the second block drop it and
    return nothing, the third returns it, and the loop of the fourth would
    drop it too. *)
Theorem length_thresholds_differ :
  (forall results el text,
      trimmedText el = Some text -> String.length text <= 1 ->
      pushTurn results el = results)
  /\ (forall t c,
        turnContent t = Some c -> String.length c <= 1 ->
        keepTurn t = false)
  /\ (forall results el text,
        trimmedText el = Some text -> String.length text < 2 ->
        pushChild results el = results)
  /\ (forall results el text,
        trimmedText el = Some text -> text <> "" ->
        exists r, pushData results el = (results ++ [mkMessage r text])%list)
  /\ (exists d c el,
        trimmedText el = Some "x"
        /\ querySelectorAll d selTurns = [el]
        /\ turnsOf d = []
        /\ querySelectorAll d selQuery = [el]
        /\ pairedOf d = []
        /\ querySelectorAll d selData = [el]
        /\ dataOf d = [mkMessage "User" "x"]
        /\ fst (findContainer d) = Some c
        /\ children c = [el]
        /\ fold_left pushChild (children c) [] = []
        /\ strategy3 d [] = (Return [mkMessage "User" "x"], [QueryAll selData])
        /\ fst (extractFromPage d) = [mkMessage "User" "x"]).
Proof.
  split; [|split; [|split; [|split]]].
  - intros results el text E Hl. unfold pushTurn. rewrite E.
    replace (Nat.ltb 1 (String.length text)) with false
      by (symmetry; apply Nat.ltb_ge; lia).
    now rewrite andb_false_r.
  - intros t c E Hl. unfold keepTurn. rewrite E.
    replace (Nat.ltb 1 (String.length c)) with false
      by (symmetry; apply Nat.ltb_ge; lia).
    apply andb_false_r.
  - intros results el text E Hl. unfold pushChild. rewrite E.
    replace (Nat.ltb (String.length text) 2) with true
      by (symmetry; apply Nat.ltb_lt; lia).
    now rewrite orb_true_r.
  - intros results el text E Hne. unfold pushData. rewrite E.
    destruct text; [congruence|]. cbn [nonEmpty]. eauto.
  - exists roleDoc, noteContainer, shortNote. repeat split.
Qed.

Lemma length_thresholds_differ_witness :
  pushTurn [] shortNote = []
  /\ keepTurn (turnOf "User" shortNote) = false
  /\ pushChild [] shortNote = []
  /\ exists r, pushData [] shortNote = [mkMessage r "x"].
Proof.
  destruct length_thresholds_differ as (H1 & H2 & H3 & H4 & _).
  split; [exact (H1 [] shortNote "x" eq_refl (le_n 1))|].
  split; [exact (H2 (turnOf "User" shortNote) "x" eq_refl (le_n 1))|].
  split; [exact (H3 [] shortNote "x" eq_refl (le_n 2))|].
  apply (H4 [] shortNote "x" eq_refl). discriminate.
Defined.

End ExtractionClaims.

(** ** The formatter *)

Module FormatterFacts.
Import JS JSON Formatter StringFacts JSONFacts BridgeFacts.

(** C8.  Reading back [formatAsJSON(title, url, messages)] gives an object
    whose [title] and [url] are the ones given and whose [messages] is the
    array of the messages with a content that is not empty, each with the
    two members [role] and [content] and no other. *)
Theorem formatAsJSON_roundtrip (now title url : string)
    (messages : list Message) :
  parse (formatAsJSON now title url messages)
    = Returned (exported now title url messages)
  /\ exists members,
       exported now title url messages = JObject members
       /\ getMember "title" members = Some (JString title)
       /\ getMember "url" members = Some (JString url)
       /\ getMember "messages" members
          = Some (JArray
                    (map reduced
                         (filter (fun m => nonEmpty (content m)) messages)))
       /\ forall m, reduced m
                    = JObject [("role", JString (role m));
                               ("content", JString (content m))].
Proof.
  split.
  - unfold formatAsJSON. apply parse_stringifyIndent.
    change (noNumbers (exported now title url messages)).
    unfold exported. cbn [noNumbers fold_right snd].
    repeat split.
    apply (noNumbers_map_array reduced).
    intros m. simpl. auto.
  - eexists. split; [reflexivity|]. repeat split.
Qed.

End FormatterFacts.

(** ** The names of the files *)

Module FileNameFacts.
Import JS StringFacts FileNames Examples.

(** *** What [trim] and [slice] keep *)

Lemma allChars_trimStart (p : ascii -> bool) (s : string) :
  allChars p s = true -> allChars p (trimStart s) = true.
Proof.
  induction s as [|c r IH]; simpl; [auto|].
  intros H. destruct (isWhiteSpace c); [|exact H].
  apply andb_true_iff in H. apply IH, H.
Qed.

Lemma allChars_trimEnd (p : ascii -> bool) (s : string) :
  allChars p s = true -> allChars p (trimEnd s) = true.
Proof.
  induction s as [|c r IH]; simpl; [auto|].
  intros H. apply andb_true_iff in H. destruct H as [Hc Hr].
  specialize (IH Hr).
  destruct (trimEnd r) as [|d t].
  - destruct (isWhiteSpace c); simpl; [reflexivity | now rewrite Hc].
  - simpl in *. now rewrite Hc, IH.
Qed.

Lemma allChars_slice0 (p : ascii -> bool) (n : nat) (s : string) :
  allChars p s = true -> allChars p (slice0 n s) = true.
Proof.
  revert s. induction n as [|k IH]; intros [|c r]; simpl; auto.
  intros H. apply andb_true_iff in H. destruct H as [Hc Hr].
  now rewrite Hc, IH.
Qed.

Lemma noDoubleSpace_tail (c : ascii) (r : string) :
  noDoubleSpace (String c r) = true -> noDoubleSpace r = true.
Proof.
  destruct r as [|d t]; [reflexivity|].
  cbn [noDoubleSpace]. intros H. apply andb_true_iff in H. apply H.
Qed.

Lemma noDoubleSpace_trimStart (s : string) :
  noDoubleSpace s = true -> noDoubleSpace (trimStart s) = true.
Proof.
  induction s as [|c r IH]; simpl trimStart; [auto|].
  intros H. destruct (isWhiteSpace c); [|exact H].
  apply IH. eapply noDoubleSpace_tail, H.
Qed.

Lemma noDoubleSpace_cons (a b : ascii) (t : string) :
  noDoubleSpace (String a (String b t))
  = negb (Ascii.eqb a " " && Ascii.eqb b " ") && noDoubleSpace (String b t).
Proof. reflexivity. Qed.

Lemma noDoubleSpace_trimEnd (s : string) :
  noDoubleSpace s = true -> noDoubleSpace (trimEnd s) = true.
Proof.
  induction s as [|c r IH]; [auto|].
  intros H. pose proof (IH (noDoubleSpace_tail _ _ H)) as Hr.
  cbn [trimEnd].
  destruct (trimEnd r) as [|d t] eqn:E.
  - destruct (isWhiteSpace c); reflexivity.
  - destruct r as [|d' t']; [discriminate|].
    assert (d' = d).
    { cbn [trimEnd] in E. destruct (trimEnd t');
        [destruct (isWhiteSpace d'); [discriminate|]|]; now inversion E. }
    subst d'. rewrite noDoubleSpace_cons in *.
    apply andb_true_iff in H. destruct H as [H _]. now rewrite H, Hr.
Qed.

Lemma noDoubleSpace_slice0 (n : nat) (s : string) :
  noDoubleSpace s = true -> noDoubleSpace (slice0 n s) = true.
Proof.
  revert s. induction n as [|k IH]; intros [|c r]; try reflexivity.
  intros H. pose proof (IH r (noDoubleSpace_tail _ _ H)) as Hr.
  cbn [slice0]. destruct k as [|k']; [destruct r; reflexivity|].
  destruct r as [|d t]; [reflexivity|].
  cbn [slice0] in *. rewrite noDoubleSpace_cons in *.
  apply andb_true_iff in H. destruct H as [H _]. now rewrite H, Hr.
Qed.

Lemma length_trimStart (s : string) :
  String.length (trimStart s) <= String.length s.
Proof.
  induction s as [|c r IH]; simpl; [lia|].
  destruct (isWhiteSpace c); simpl; lia.
Qed.

Lemma length_trimEnd (s : string) :
  String.length (trimEnd s) <= String.length s.
Proof.
  induction s as [|c r IH]; simpl; [lia|].
  destruct (trimEnd r); [destruct (isWhiteSpace c)|]; simpl in *; lia.
Qed.

Lemma length_slice0 (n : nat) (s : string) :
  String.length (slice0 n s) <= n.
Proof.
  revert s. induction n as [|k IH]; intros [|c r]; simpl; try lia.
  specialize (IH r). lia.
Qed.

Lemma slice0_short (n : nat) (s : string) :
  String.length s <= n -> slice0 n s = s.
Proof.
  revert s. induction n as [|k IH]; intros [|c r]; simpl; try reflexivity.
  - lia.
  - intros H. rewrite IH by lia. reflexivity.
Qed.

Lemma slice0_length_lt (n : nat) (s : string) :
  String.length (slice0 n s) < n -> slice0 n s = s.
Proof.
  revert s. induction n as [|k IH]; intros [|c r]; simpl; try reflexivity.
  - lia.
  - intros H. rewrite IH by lia. reflexivity.
Qed.

Lemma noLeadingSpace_slice0 (n : nat) (s : string) :
  noLeadingSpace s = true -> noLeadingSpace (slice0 n s) = true.
Proof. destruct n, s; simpl; auto. Qed.

Lemma noLeadingSpace_trim (s : string) : noLeadingSpace (trim s) = true.
Proof.
  unfold trim. destruct (trimStart s) as [|c r] eqn:E; [reflexivity|].
  pose proof (trimStart_head _ _ _ E) as W.
  destruct (trimEnd_cons c r W) as [r' ->]. simpl. now rewrite W.
Qed.

(** *** What the two replacements leave *)

Lemma replaceForbidden_clean (s : string) :
  allChars (fun c => negb (isForbidden c)) (replaceForbidden s) = true.
Proof.
  induction s as [|c r IH]; simpl; [reflexivity|].
  rewrite IH. destruct (isForbidden c) eqn:E; [reflexivity | now rewrite E].
Qed.

Lemma collapseFrom_clean (b : bool) (s : string) :
  allChars (fun c => negb (isForbidden c)) s = true ->
  allChars (fun c => negb (isForbidden c)) (collapseFrom b s) = true.
Proof.
  revert b. induction s as [|c r IH]; intros b; simpl; [auto|].
  intros H. apply andb_true_iff in H. destruct H as [Hc Hr].
  destruct (isWhiteSpace c); [destruct b|]; simpl; rewrite ?Hc; simpl; auto.
Qed.

Lemma collapseFrom_plain (b : bool) (s : string) :
  allChars plainSpace (collapseFrom b s) = true.
Proof.
  revert b. induction s as [|c r IH]; intros b; simpl; [reflexivity|].
  destruct (isWhiteSpace c) eqn:W; [destruct b|]; simpl; rewrite ?IH; auto.
  unfold plainSpace. now rewrite W.
Qed.

(** After a run the text goes on with a character that is not a space. *)
Lemma collapseFrom_true_head (s : string) :
  match collapseFrom true s with
  | String c _ => Ascii.eqb c " " = false
  | EmptyString => True
  end.
Proof.
  induction s as [|c r IH]; simpl; [exact I|].
  destruct (isWhiteSpace c) eqn:W; [exact IH|].
  destruct (Ascii.eqb_spec c " ") as [->|]; [discriminate W | reflexivity].
Qed.

Lemma collapseFrom_noDouble (b : bool) (s : string) :
  noDoubleSpace (collapseFrom b s) = true.
Proof.
  revert b. induction s as [|c r IH]; intros b; simpl; [reflexivity|].
  destruct (isWhiteSpace c) eqn:W; [destruct b; [apply IH|]|].
  - pose proof (collapseFrom_true_head r) as Hh. pose proof (IH true) as Hr.
    destruct (collapseFrom true r) as [|d t]; [reflexivity|].
    rewrite noDoubleSpace_cons, Hh, Hr. reflexivity.
  - pose proof (IH false) as Hr.
    destruct (collapseFrom false r) as [|d t]; [reflexivity|].
    rewrite noDoubleSpace_cons, Hr.
    destruct (Ascii.eqb_spec c " ") as [->|]; [discriminate W | reflexivity].
Qed.

(** *** A clean text is left as it is *)

Lemma replaceForbidden_id (s : string) :
  allChars (fun c => negb (isForbidden c)) s = true -> replaceForbidden s = s.
Proof.
  induction s as [|c r IH]; simpl; [reflexivity|].
  intros H. apply andb_true_iff in H. destruct H as [Hc Hr].
  apply negb_true_iff in Hc. now rewrite Hc, IH.
Qed.

Lemma collapseFrom_id (s : string) :
  allChars plainSpace s = true -> noDoubleSpace s = true ->
  forall b, (b = true -> noLeadingSpace s = true) -> collapseFrom b s = s.
Proof.
  induction s as [|c r IH]; intros Hp Hd b Hb; [reflexivity|].
  cbn [allChars] in Hp. apply andb_true_iff in Hp. destruct Hp as [Hc Hr].
  pose proof (noDoubleSpace_tail _ _ Hd) as Hd'.
  cbn [collapseFrom].
  destruct (isWhiteSpace c) eqn:W.
  - unfold plainSpace in Hc. rewrite W in Hc. cbn in Hc.
    apply Ascii.eqb_eq in Hc. subst c.
    destruct b.
    + specialize (Hb eq_refl). cbn in Hb. discriminate.
    + f_equal. apply IH; auto. intros _.
      destruct r as [|d t]; [reflexivity|].
      rewrite noDoubleSpace_cons in Hd. apply andb_true_iff in Hd.
      destruct Hd as [Hd _]. cbn in Hd. cbn [noLeadingSpace].
      cbn [allChars] in Hr. apply andb_true_iff in Hr. destruct Hr as [Hd2 _].
      unfold plainSpace in Hd2.
      destruct (Ascii.eqb d " "); [discriminate|].
      now rewrite orb_false_r in Hd2.
  - f_equal. apply IH; auto. discriminate.
Qed.

Lemma length_trim (s : string) : String.length (trim s) <= String.length s.
Proof.
  unfold trim. pose proof (length_trimEnd (trimStart s)).
  pose proof (length_trimStart s). lia.
Qed.

(** *** [sanitizeFilename] *)

Lemma sanitizeFilename_invariants (name : string) :
  String.length (sanitizeFilename name) <= 200
  /\ allChars (fun c => negb (isForbidden c)) (sanitizeFilename name) = true
  /\ allChars plainSpace (sanitizeFilename name) = true
  /\ noDoubleSpace (sanitizeFilename name) = true
  /\ noLeadingSpace (sanitizeFilename name) = true.
Proof.
  unfold sanitizeFilename, trim, collapseWhiteSpace.
  split; [apply length_slice0|].
  split.
  { apply allChars_slice0, allChars_trimEnd, allChars_trimStart,
      collapseFrom_clean, replaceForbidden_clean. }
  split.
  { apply allChars_slice0, allChars_trimEnd, allChars_trimStart,
      collapseFrom_plain. }
  split.
  { apply noDoubleSpace_slice0, noDoubleSpace_trimEnd,
      noDoubleSpace_trimStart, collapseFrom_noDouble. }
  apply noLeadingSpace_slice0. apply noLeadingSpace_trim.
Qed.

(** X1.  The name [sanitizeFilename] gives has at most 200 characters, none
    of the characters it replaces, no white space but single spaces, and
    does not begin with a space. *)
Theorem sanitizeFilename_shape (name : string) :
  String.length (sanitizeFilename name) <= 200
  /\ allChars (fun c => negb (isForbidden c)) (sanitizeFilename name) = true
  /\ allChars plainSpace (sanitizeFilename name) = true
  /\ noDoubleSpace (sanitizeFilename name) = true
  /\ noLeadingSpace (sanitizeFilename name) = true.
Proof. exact (sanitizeFilename_invariants name). Qed.

Lemma sanitizeFilename_again (name : string) :
  sanitizeFilename (sanitizeFilename name) = trim (sanitizeFilename name).
Proof.
  destruct (sanitizeFilename_invariants name) as (Hl & Hc & Hp & Hd & Hs).
  unfold sanitizeFilename at 1. unfold collapseWhiteSpace.
  rewrite (replaceForbidden_id _ Hc).
  rewrite (collapseFrom_id _ Hp Hd false) by discriminate.
  apply slice0_short. pose proof (length_trim (sanitizeFilename name)). lia.
Qed.

(** X2.  A second pass of [sanitizeFilename] only trims: it changes
    nothing when the name is shorter than 200 characters, and it does
    change a name that was cut at 200 characters right after a space. *)
Theorem sanitizeFilename_second_pass :
  (forall name,
     sanitizeFilename (sanitizeFilename name) = trim (sanitizeFilename name))
  /\ (forall name,
        String.length (sanitizeFilename name) < 200 ->
        sanitizeFilename (sanitizeFilename name) = sanitizeFilename name)
  /\ (exists name,
        sanitizeFilename (sanitizeFilename name) <> sanitizeFilename name).
Proof.
  split; [exact sanitizeFilename_again|]. split.
  - intros name H. rewrite sanitizeFilename_again.
    unfold sanitizeFilename in *.
    rewrite (slice0_length_lt _ _ H). apply trim_idem.
  - exists cutName. apply String.eqb_neq. vm_compute. reflexivity.
Qed.

Lemma sanitizeFilename_second_pass_witness :
  String.length (sanitizeFilename "a/b  c ") < 200
  /\ sanitizeFilename (sanitizeFilename "a/b  c ") = sanitizeFilename "a/b  c ".
Proof.
  assert (H : String.length (sanitizeFilename "a/b  c ") < 200)
    by (vm_compute; lia).
  split; [exact H|].
  exact (proj1 (proj2 sanitizeFilename_second_pass) "a/b  c " H).
Defined.

(** *** The name of the file of a chat *)

Lemma uint_clean (d : Decimal.uint) :
  allChars (fun c => negb (isForbidden c)) (NilEmpty.string_of_uint d) = true.
Proof. induction d; simpl; auto. Qed.

Lemma decimal_clean (n : nat) :
  allChars (fun c => negb (isForbidden c)) (decimal n) = true.
Proof.
  unfold decimal, NilZero.string_of_uint.
  destruct (Nat.to_uint n); try apply uint_clean. reflexivity.
Qed.

(** A text that begins with a character that is not white space is not
    cleaned away. *)
Lemma sanitizeFilename_nonEmpty (s : string) :
  nonEmpty s = true -> noLeadingSpace s = true ->
  nonEmpty (sanitizeFilename s) = true.
Proof.
  destruct s as [|c r]; [discriminate|]. intros _ H. cbn in H.
  apply negb_true_iff in H.
  unfold sanitizeFilename, collapseWhiteSpace. cbn [replaceForbidden].
  set (c' := if isForbidden c then "-"%char else c).
  assert (W : isWhiteSpace c' = false).
  { unfold c'. destruct (isForbidden c); [reflexivity | exact H]. }
  cbn [collapseFrom]. rewrite W. unfold trim. cbn [trimStart]. rewrite W.
  destruct (trimEnd_cons c' (collapseFrom false (replaceForbidden r)) W)
    as [r' ->].
  reflexivity.
Qed.

Lemma fileName_cleaned (i : nat) (text : string) :
  noLeadingSpace text = true ->
  fileName i text = sanitizeFilename (chatTitle i text).
Proof.
  intros H. unfold fileName. cbv zeta.
  assert (N : nonEmpty (sanitizeFilename (chatTitle i text)) = true).
  { unfold chatTitle. destruct (nonEmpty text) eqn:E;
      now apply sanitizeFilename_nonEmpty. }
  now rewrite N.
Qed.

(** X3.  The name of the file of a chat is never empty and has none of the
    characters [sanitizeFilename] replaces, so neither a slash nor a
    backslash; and for a label that does not begin with white space the
    name is the cleaned title: the fallback [chat-N] is not needed. *)
Theorem fileName_safe (i : nat) (text : string) :
  fileName i text <> ""
  /\ allChars (fun c => negb (isForbidden c)) (fileName i text) = true
  /\ (noLeadingSpace text = true ->
      fileName i text = sanitizeFilename (chatTitle i text)).
Proof.
  split; [|split; [|apply fileName_cleaned]]; unfold fileName; cbv zeta;
    destruct (nonEmpty (sanitizeFilename (chatTitle i text))) eqn:N.
  - intros E. rewrite E in N. discriminate.
  - discriminate.
  - apply sanitizeFilename_invariants.
  - cbn [append allChars]. apply decimal_clean.
Qed.

Lemma fileName_safe_witness :
  noLeadingSpace "Notes: a/b" = true
  /\ fileName 0 "Notes: a/b" = "Notes- a-b".
Proof.
  split; [reflexivity|].
  rewrite (proj2 (proj2 (fileName_safe 0 "Notes: a/b")) eq_refl).
  reflexivity.
Defined.

End FileNameFacts.

(** ** The Markdown document *)

Module MarkdownFacts.
Import JS JSON StringFacts JSONFacts BridgeFacts Formatter.

Lemma fold_addSection (messages : list Message) :
  forall md,
    fold_left addSection messages md
    = md ++ sections (filter (fun m => nonEmpty (content m)) messages).
Proof.
  unfold sections.
  induction messages as [|m l IH]; intros md; cbn [fold_left filter].
  - cbn. now rewrite append_nil_r.
  - rewrite IH. unfold addSection.
    destruct (nonEmpty (content m)); [|reflexivity].
    cbn [map fold_right]. now rewrite append_assoc.
Qed.

Lemma sections_app (a b : list Message) :
  sections (a ++ b) = sections a ++ sections b.
Proof.
  unfold sections. induction a as [|m a IH]; [reflexivity|].
  cbn [app map fold_right]. now rewrite IH, append_assoc.
Qed.

Lemma formatAsMarkdown_closed (title url : string) (messages : list Message) :
  formatAsMarkdown title url messages
  = "# " ++ title ++ newline ++ newline
    ++ sections (filter (fun m => nonEmpty (content m)) messages).
Proof.
  unfold formatAsMarkdown. rewrite fold_addSection. now rewrite !append_assoc.
Qed.

(** X4.  The Markdown document is the line of the title followed by one
    section for each message whose content is not empty, in the order of
    the messages; a message with an empty content leaves no trace, and the
    document of two lists one after the other is the document of the first
    followed by the sections of the second. *)
Theorem formatAsMarkdown_sections (title url : string)
    (messages more : list Message) :
  formatAsMarkdown title url messages
  = "# " ++ title ++ newline ++ newline
    ++ sections (filter (fun m => nonEmpty (content m)) messages)
  /\ formatAsMarkdown title url messages
     = formatAsMarkdown title url
         (filter (fun m => nonEmpty (content m)) messages)
  /\ formatAsMarkdown title url (messages ++ more)
     = formatAsMarkdown title url messages
       ++ sections (filter (fun m => nonEmpty (content m)) more).
Proof.
  unfold formatAsMarkdown. rewrite !fold_addSection.
  split; [now rewrite !append_assoc|]. split.
  - f_equal. f_equal. induction messages as [|m l IH]; cbn; [reflexivity|].
    destruct (nonEmpty (content m)) eqn:E; cbn; rewrite ?E; congruence.
  - rewrite filter_app, sections_app. now rewrite !append_assoc.
Qed.

End MarkdownFacts.

(** ** From the page to the files *)

Module ExportFacts.
Import JS JSON Dom Browser Gemini StringFacts JSONFacts BridgeFacts.
Import DiscoveryFacts DiscoveryClaims ExtractionFacts ExtractionClaims.
Import FileNames FileNameFacts MarkdownFacts.

Lemma hasContent_nonEmpty (m : Gemini.Message) :
  hasContent m -> nonEmpty (Gemini.content m) = true.
Proof.
  unfold hasContent. destruct (Gemini.content m); [discriminate | reflexivity].
Qed.

Lemma filter_asFormatted (messages : list Gemini.Message) :
  Forall hasContent messages ->
  filter (fun m => nonEmpty (Formatter.content m)) (map asFormatted messages)
  = map asFormatted messages.
Proof.
  induction 1 as [|m l Hm Hl IH]; cbn; [reflexivity|].
  rewrite (hasContent_nonEmpty m Hm), IH. reflexivity.
Qed.

(** X5.  Every message [extractMessages] returns is exported: the
    [messages] of the JSON document read back are the very array
    [extractMessages] returned, and the Markdown document has one section
    for each of its messages; the filters of the formatters drop none. *)
Theorem extracted_messages_are_exported (page : option Document)
    (now title url : string) :
  exists messages,
    extractMessages page = Returned (JArray (map messageJson messages))
    /\ parse (Formatter.formatAsJSON now title url (map asFormatted messages))
       = Returned
           (JObject
              [("title", JString title); ("url", JString url);
               ("exportedAt", JString now);
               ("messages", JArray (map messageJson messages))])
    /\ Formatter.formatAsMarkdown title url (map asFormatted messages)
       = "# " ++ title ++ newline ++ newline
         ++ Formatter.sections (map asFormatted messages).
Proof.
  eexists. split; [apply extractMessages_messages|].
  set (messages := match page with
                   | Some d => fst (extractFromPage d)
                   | None => []
                   end).
  assert (H : Forall hasContent messages).
  { unfold messages. destruct page; [apply extract_hasContent | constructor]. }
  split.
  - unfold Formatter.formatAsJSON, Formatter.exported.
    rewrite (filter_asFormatted _ H), map_map.
    apply parse_stringifyIndent.
    cbn [noNumbers fold_right snd]. repeat split.
    apply (noNumbers_map_array
             (fun m => Formatter.reduced (asFormatted m))).
    intros m. simpl. auto.
  - rewrite formatAsMarkdown_closed.
    now rewrite (filter_asFormatted _ H).
Qed.

(** *** The labels of the chats *)

Lemma firstLine_oneLine (s : string) :
  allChars notLineFeed (firstLine s) = true.
Proof.
  induction s as [|c r IH]; cbn [firstLine]; [reflexivity|].
  destruct (codeIn c [10]) eqn:E; [reflexivity|].
  cbn [allChars]. unfold notLineFeed at 1. now rewrite E, IH.
Qed.

Lemma linkOf_label (a : Element) :
  trim (linkText (linkOf a)) = linkText (linkOf a)
  /\ allChars notLineFeed (linkText (linkOf a)) = true
  /\ noLeadingSpace (linkText (linkOf a)) = true.
Proof.
  unfold linkOf. cbn [linkText]. split; [apply trim_idem|]. split.
  - unfold trim. apply allChars_trimEnd, allChars_trimStart, firstLine_oneLine.
  - apply noLeadingSpace_trim.
Qed.

Section Labels.

Context {World : Type}.
Variable readCount : World -> string * World.
Variables scrollStep openSidebar : World -> World.
Variable pageOf : World -> option Document.

(** X6.  The label of every chat [collectChats] returns is one line
    without white space at its ends, so the name of its file is its cleaned
    title, whatever its position in the list. *)
Theorem labels_are_one_trimmed_line (verbose : bool) (w : World) :
  exists links,
    collectChats readCount scrollStep openSidebar pageOf verbose w
      = Returned (JArray (map linkJson links))
    /\ forall l, In l links ->
         trim (linkText l) = linkText l
         /\ allChars notLineFeed (linkText l) = true
         /\ forall i,
              fileName i (linkText l)
              = sanitizeFilename (chatTitle i (linkText l)).
Proof.
  exists (firstSeen (keptLinks readCount scrollStep openSidebar pageOf verbose w)).
  split; [apply collectLinks_links|].
  intros l Hl. apply firstSeen_incl in Hl. unfold keptLinks in Hl.
  destruct (sidebarPage _ _ _ _ _ _); [|contradiction].
  unfold pageLinks in Hl. apply filter_In in Hl. destruct Hl as [Hl _].
  apply in_map_iff in Hl. destruct Hl as (a & <- & _).
  destruct (linkOf_label a) as (H1 & H2 & H3).
  split; [exact H1|]. split; [exact H2|].
  intros i. now apply fileName_cleaned.
Qed.

End Labels.

End ExportFacts.

(** ** The rounds and the log of the scroll loop *)

Module ScrollRounds.
Import JS JSON Dom Browser Gemini ScrollFacts.

Section Loop.

Context {World : Type}.
Variable readCount : World -> string * World.
Variable scrollStep : World -> World.

(** X7.  However the page behaves, the loop runs at least five rounds and
    at most 100: it cannot leave before the fifth poll. *)
Theorem scroll_loop_at_least_five_rounds (verbose : bool) (w : World) :
  let r := scrollSidebarToLoadAll readCount scrollStep verbose w in
  5 <= rounds r <= 100.
Proof.
  cbv zeta. unfold scrollSidebarToLoadAll.
  generalize (scrollLoop_stops readCount scrollStep verbose w 100 0 0 []).
  change (Gemini.worldAt readCount scrollStep 0 w) with w.
  generalize (Gemini.scrollLoop readCount scrollStep verbose 100 0 0 [] w).
  intros r H.
  destruct H as (Hle & Hb & _ & Hn & _); try lia.
  - intros n Hn [H5 _]. lia.
  - split; [|exact Hle].
    destruct (broke r) eqn:E.
    + exact (proj1 (Hb eq_refl)).
    + rewrite (proj1 (Hn eq_refl)). lia.
Qed.




End Loop.

End ScrollRounds.

(** ** The loops of the extraction script *)

Module LoopFacts.
Import JS JSON Dom Browser Gemini ExtractionFacts.







End LoopFacts.
